(** * Signal lifecycle engine of cryptomaxa: a shallow embedding

    The development follows the Python sources

    - [src/signal_analyzer/validator.py]  (execution state machine, confidence annotator)
    - [src/api_client/response_parser.py] (normalisation of raw API items)
    - [src/signal_analyzer/processor.py]  (deduplication / upsert engine)
    - [src/scheduler/tasks.py]            (scheduler, run ledger)

    Conventions of the embedding:

    - a Python [float] and a SQL [Numeric] are rationals ([Q]); comparisons are
      [Qle_bool]/[Qeq_bool] (there is no NaN and no rounding in the model);
    - [None] is [option]'s [None]; Python truthiness of a number ([if x:]) is
      "present and different from zero";
    - Python [str] values are [string]s (byte strings, UTF-8 for the literals);
    - [datetime] values are integers: microseconds since the epoch;
    - the relational store is the list of its rows, in insertion order. *)

From Stdlib Require Import ZArith QArith String Ascii List Bool Lia.
From stdpp Require Import base list.
Import ListNotations.

Local Open Scope string_scope.

(* ---------------------------------------------------------------------- *)
(** ** Python primitives used by the sources *)

Module Py.

(** [if x:] on an optional number: false for [None] and for zero. *)
Definition truthy (x : option Q) : bool :=
  match x with
  | Some q => negb (Qeq_bool q 0)
  | None => false
  end.

(** [a != b] on optional numbers. *)
Definition opt_neq (a b : option Q) : bool :=
  match a, b with
  | Some x, Some y => negb (Qeq_bool x y)
  | None, None => false
  | _, _ => true
  end.

(** [a != b] on optional strings. *)
Definition opt_str_neq (a b : option string) : bool :=
  match a, b with
  | Some x, Some y => negb (String.eqb x y)
  | None, None => false
  | _, _ => true
  end.

(** [a < b], written with the library's boolean [<=]. *)
Definition Qlt_bool (a b : Q) : bool := negb (Qle_bool b a).

Definition upper_ascii (c : ascii) : ascii :=
  let n := N_of_ascii c in
  if ((97 <=? n) && (n <=? 122))%N then ascii_of_N (n - 32) else c.

(** [str.upper()] on the ASCII range. *)
Fixpoint upper (s : string) : string :=
  match s with
  | EmptyString => EmptyString
  | String c r => String (upper_ascii c) (upper r)
  end.

(** The ASCII characters [str.strip()] removes: TAB, LF, VT, FF, CR,
    FS, GS, RS, US and the space. *)
Definition is_space (c : ascii) : bool :=
  let n := N_of_ascii c in
  (((9 <=? n) && (n <=? 13)) || ((28 <=? n) && (n <=? 32)))%N.

Fixpoint lstrip (s : string) : string :=
  match s with
  | EmptyString => EmptyString
  | String c r => if is_space c then lstrip r else s
  end.

Fixpoint rstrip (s : string) : string :=
  match s with
  | EmptyString => EmptyString
  | String c r =>
      match rstrip r with
      | EmptyString => if is_space c then EmptyString else String c EmptyString
      | r' => String c r'
      end
  end.

Definition strip (s : string) : string := rstrip (lstrip s).

(** [x in l] for a list of string literals. *)
Definition str_in (x : string) (l : list string) : bool :=
  existsb (String.eqb x) l.

End Py.

(* ---------------------------------------------------------------------- *)
(** ** database/models.py *)

(** A row of table [signals]. [entry_price], [ticker], [timeframe] and
    [signal_type] are [nullable=False]; the other columns may be NULL. *)
Record Signal := mkSignal {
  id : nat;
  ticker : string;
  timeframe : string;
  signal_type : string;
  entry_price : Q;
  take_profit : option Q;
  stop_loss : option Q;
  confidence : option Q;
  risk_reward : option Q;
  current_price : option Q;
  status : string;
  is_main_signal : bool;
  correction_type : option string;
  correction_entry : option Q;
  correction_tp : option Q;
  correction_sl : option Q;
  correction_confidence : option Q;
  created_at : Z
}.

(** A row of table [error_logs]. *)
Record ErrorLog := mkErrorLog {
  source : string;
  message : string
}.

(* ---------------------------------------------------------------------- *)
(** ** signal_analyzer/validator.py : SignalValidator *)

Module SignalValidator.

(** [_check_entry_execution] *)
Definition _check_entry_execution
    (signal_type : string) (current_price entry_price : Q) : bool :=
  if signal_type =? "LONG" then Qle_bool current_price entry_price
  else if signal_type =? "SHORT" then Qle_bool entry_price current_price
  else false.

(** [_check_take_profit_execution] *)
Definition _check_take_profit_execution
    (signal_type : string) (current_price take_profit : Q) : bool :=
  if signal_type =? "LONG" then Qle_bool take_profit current_price
  else if signal_type =? "SHORT" then Qle_bool current_price take_profit
  else false.

(** [_check_stop_loss_execution] *)
Definition _check_stop_loss_execution
    (signal_type : string) (current_price stop_loss : Q) : bool :=
  if signal_type =? "LONG" then Qle_bool current_price stop_loss
  else if signal_type =? "SHORT" then Qle_bool stop_loss current_price
  else false.

(** [float(x) if x else None] *)
Definition float_if_set (x : option Q) : option Q :=
  if Py.truthy x then x else None.

(** [_check_signal_execution]: the status the signal has after
    observing [current_price]. *)
Definition _check_signal_execution (signal : Signal) (current_price : Q) : string :=
  let entry_price := signal.(entry_price) in
  let signal_type := Py.upper signal.(signal_type) in
  let take_profit := float_if_set signal.(take_profit) in
  let stop_loss := float_if_set signal.(stop_loss) in
  if signal.(status) =? "new" then
    if _check_entry_execution signal_type current_price entry_price
    then "entry_hit" else "new"
  else if (signal.(status) =? "entry_hit") || (signal.(status) =? "active") then
    let stop_hit :=
      match stop_loss with
      | Some sl => if Py.truthy stop_loss
                   then _check_stop_loss_execution signal_type current_price sl
                   else false
      | None => false
      end in
    let take_hit :=
      match take_profit with
      | Some tp => if Py.truthy take_profit
                   then _check_take_profit_execution signal_type current_price tp
                   else false
      | None => false
      end in
    if stop_hit then "sl_hit"
    else if take_hit then "tp_hit"
    else "active"
  else signal.(status).

(** [SignalCRUD.update_signal_status] on the row it finds; [price] is the
    argument [current_price]. *)
Definition update_signal_status
    (signal : Signal) (new_status : string) (price : option Q) : Signal :=
  {| id := signal.(id);
     ticker := signal.(ticker);
     timeframe := signal.(timeframe);
     signal_type := signal.(signal_type);
     entry_price := signal.(entry_price);
     take_profit := signal.(take_profit);
     stop_loss := signal.(stop_loss);
     confidence := signal.(confidence);
     risk_reward := signal.(risk_reward);
     current_price :=
       match price with
       | Some p => Some p
       | None => signal.(current_price)
       end;
     status := new_status;
     is_main_signal := signal.(is_main_signal);
     correction_type := signal.(correction_type);
     correction_entry := signal.(correction_entry);
     correction_tp := signal.(correction_tp);
     correction_sl := signal.(correction_sl);
     correction_confidence := signal.(correction_confidence);
     created_at := signal.(created_at) |}.

(** The body of the loop of [validate_active_signals] for a signal whose
    current price is known: the status is written when it changes. *)
Definition validate_signal (signal : Signal) (current_price : Q) : Signal :=
  let new_status := _check_signal_execution signal current_price in
  if negb (new_status =? signal.(status))
  then update_signal_status signal new_status (Some current_price)
  else signal.

End SignalValidator.

(* ---------------------------------------------------------------------- *)
(** ** Parsed observations *)

(** An entry of an observation's ['warnings'] list. *)
Record Warning := mkWarning {
  w_type : string;
  w_message : string;
  w_severity : string
}.

(** The ['correction'] payload the processor reads: a non-empty dict, each
    field being [payload.get(key)]. *)
Record Correction := mkCorrection {
  c_direction : option string;
  c_entry : option Q;
  c_tp : option (list Q);
  c_sl : option Q;
  c_confidence : option Q
}.

(** The dict [_parse_single_signal] builds, together with the keys later
    stages add to it or read from it. A field of type [option] is [None]
    when the key is absent or holds [None] ([dict.get] does not tell them
    apart); [sd_correction = None] also stands for an empty payload. *)
Record Observation := mkObservation {
  sd_ticker : string;
  sd_timeframe : string;
  sd_signal_type : string;
  sd_entry_price : Q;
  sd_take_profit : option Q;
  sd_stop_loss : option Q;
  sd_confidence : option Q;
  sd_risk_reward : option Q;
  sd_current_price : Q;
  sd_status : string;
  sd_created_at : Z;
  sd_signal_category : option string;
  sd_correction : option Correction;
  sd_warnings : option (list Warning)
}.

Definition set_warnings (sd : Observation) (ws : list Warning) : Observation :=
  {| sd_ticker := sd.(sd_ticker);
     sd_timeframe := sd.(sd_timeframe);
     sd_signal_type := sd.(sd_signal_type);
     sd_entry_price := sd.(sd_entry_price);
     sd_take_profit := sd.(sd_take_profit);
     sd_stop_loss := sd.(sd_stop_loss);
     sd_confidence := sd.(sd_confidence);
     sd_risk_reward := sd.(sd_risk_reward);
     sd_current_price := sd.(sd_current_price);
     sd_status := sd.(sd_status);
     sd_created_at := sd.(sd_created_at);
     sd_signal_category := sd.(sd_signal_category);
     sd_correction := sd.(sd_correction);
     sd_warnings := Some ws |}.

Definition set_signal_category (sd : Observation) (c : string) : Observation :=
  {| sd_ticker := sd.(sd_ticker);
     sd_timeframe := sd.(sd_timeframe);
     sd_signal_type := sd.(sd_signal_type);
     sd_entry_price := sd.(sd_entry_price);
     sd_take_profit := sd.(sd_take_profit);
     sd_stop_loss := sd.(sd_stop_loss);
     sd_confidence := sd.(sd_confidence);
     sd_risk_reward := sd.(sd_risk_reward);
     sd_current_price := sd.(sd_current_price);
     sd_status := sd.(sd_status);
     sd_created_at := sd.(sd_created_at);
     sd_signal_category := Some c;
     sd_correction := sd.(sd_correction);
     sd_warnings := sd.(sd_warnings) |}.

(* ---------------------------------------------------------------------- *)
(** ** signal_analyzer/validator.py : ConfidenceAnalyzer *)

Module ConfidenceAnalyzer.

Definition HIGH_CONFIDENCE_THRESHOLD : Q := 90.
Definition LOW_CONFIDENCE_THRESHOLD : Q := 50.

Section Analyzer.

(** The text an f-string prints for a float ([f'{confidence}']). *)
Variable format_float : Q -> string.

(** [_check_trend_conflict]. It reads [signal.get('confidence', 0)] and
    is called for a signal whose confidence is known. *)
Definition _check_trend_conflict (signal : Observation) : option Warning :=
  match signal.(sd_confidence) with
  | Some confidence =>
      if Py.Qlt_bool 95 confidence then
        Some {| w_type := "potential_trend_conflict";
                w_message := "⚠️ Возможный сигнал против тренда (требует проверки)";
                w_severity := "warning" |}
      else None
  | None => None
  end.

(** The body of the loop of [analyze_confidence_warnings]: the
    ['warnings'] list built for one signal. *)
Definition confidence_warnings (signal : Observation) : list Warning :=
  match signal.(sd_confidence) with
  | Some confidence =>
      (if Qle_bool HIGH_CONFIDENCE_THRESHOLD confidence then
         [ {| w_type := "high_confidence";
              w_message := "⚠️ Высокий confidence: "
                           ++ format_float confidence ++ "% (опасность)";
              w_severity := "warning" |} ]
       else if Py.Qlt_bool confidence LOW_CONFIDENCE_THRESHOLD then
         [ {| w_type := "low_confidence";
              w_message := "⚠️ Слабый сигнал: " ++ format_float confidence ++ "%";
              w_severity := "info" |} ]
       else [])
      ++ match _check_trend_conflict signal with
         | Some trend_warning => [trend_warning]
         | None => []
         end
  | None => []
  end.

(** [analyze_confidence_warnings] *)
Fixpoint analyze_confidence_warnings (signals : list Observation) : list Observation :=
  match signals with
  | [] => []
  | signal :: rest =>
      set_warnings signal (confidence_warnings signal)
      :: analyze_confidence_warnings rest
  end.

End Analyzer.

End ConfidenceAnalyzer.

(* ---------------------------------------------------------------------- *)
(** ** api_client/response_parser.py : SignalDataParser *)

#[local] Unset Elimination Schemes.

(** A decoded JSON value. A dict keeps its items in insertion order. *)
Inductive PyVal :=
| PNone
| PBool (b : bool)
| PInt (z : Z)
| PFloat (q : Q)
| PStr (s : string)
| PList (l : list PyVal)
| PDict (d : list (string * PyVal)).

#[local] Set Elimination Schemes.

Module SignalDataParser.

(** [data[key]] when [key in data]. *)
Fixpoint dict_get (data : list (string * PyVal)) (key : string) : option PyVal :=
  match data with
  | [] => None
  | (k, v) :: rest => if k =? key then Some v else dict_get rest key
  end.

(** [data[key] = v]: replaces the value of an existing key in place,
    otherwise appends the item. *)
Fixpoint dict_set (data : list (string * PyVal)) (key : string) (v : PyVal)
    : list (string * PyVal) :=
  match data with
  | [] => [(key, v)]
  | (k, w) :: rest =>
      if k =? key then (k, v) :: rest else (k, w) :: dict_set rest key v
  end.

(** [data.get(key)]: an absent key reads as [None]. *)
Definition dict_get_default (data : list (string * PyVal)) (key : string) : PyVal :=
  match dict_get data key with
  | Some v => v
  | None => PNone
  end.

Definition is_none (v : PyVal) : bool :=
  match v with PNone => true | _ => false end.

(** [_extract_field]: the value of the first key that is present and
    not [None], otherwise [default]. *)
Fixpoint _extract_field
    (data : list (string * PyVal)) (possible_keys : list string) (default : PyVal)
    : PyVal :=
  match possible_keys with
  | [] => default
  | key :: keys =>
      match dict_get data key with
      | Some v => if is_none v then _extract_field data keys default else v
      | None => _extract_field data keys default
      end
  end.

(** [not v]: Python falsiness of a decoded value. *)
Definition falsy (v : PyVal) : bool :=
  match v with
  | PNone => true
  | PBool b => negb b
  | PInt z => (z =? 0)%Z
  | PFloat q => Qeq_bool q 0
  | PStr s => s =? ""
  | PList l => match l with [] => true | _ => false end
  | PDict d => match d with [] => true | _ => false end
  end.

(** [_normalize_signal_type]. After [str(v).upper().strip()] only a text
    can be one of the listed words, and of the numbers only the integers
    [1] and [-1] print as ["1"] and ["-1"]; the text of a bool, a float,
    a list or a dict is none of the listed words. *)
Definition _normalize_signal_type (signal_type : PyVal) : string :=
  if falsy signal_type then "HOLD"
  else
    match signal_type with
    | PStr s =>
        let s := Py.strip (Py.upper s) in
        if Py.str_in s ["LONG"; "BUY"; "1"; "UP"; "BULL"; "BULLISH"] then "LONG"
        else if Py.str_in s ["SHORT"; "SELL"; "-1"; "DOWN"; "BEAR"; "BEARISH"] then "SHORT"
        else "HOLD"
    | PInt z =>
        if (z =? 1)%Z then "LONG" else if (z =? -1)%Z then "SHORT" else "HOLD"
    | _ => "HOLD"
    end.

Section Parser.

(** [float(s)] on a text: [None] when it raises [ValueError]. *)
Variable float_of_str : string -> option Q.

(** [float(v)], [None] when it raises [ValueError] or [TypeError]
    (every integer is taken to fit a float). *)
Definition py_float (v : PyVal) : option Q :=
  match v with
  | PBool b => Some (if b then 1 else 0)%Q
  | PInt z => Some (inject_Z z)
  | PFloat q => Some q
  | PStr s => float_of_str s
  | PNone | PList _ | PDict _ => None
  end.

(** [_extract_numeric_field] *)
Definition _extract_numeric_field
    (data : list (string * PyVal)) (possible_keys : list string) : option Q :=
  let value := _extract_field data possible_keys PNone in
  if is_none value then None else py_float value.

(** [_parse_single_signal]; [now] is the reading of [datetime.utcnow()]. *)
Definition _parse_single_signal
    (now : Z) (data : list (string * PyVal)) (ticker timeframe : string)
    : option Observation :=
  let signal_type :=
    _extract_field data ["type"; "signal"; "signal_type"; "direction"; "side"]
                   (PStr "HOLD") in
  let entry_price := _extract_numeric_field data ["entry"; "entry_price"; "price"] in
  let take_profit :=
    _extract_numeric_field data ["tp"; "take_profit"; "target"; "take"] in
  let stop_loss :=
    _extract_numeric_field data ["sl"; "stop_loss"; "stop"; "stoploss"] in
  let confidence :=
    _extract_numeric_field data ["confidence"; "prob"; "probability"; "conf"] in
  let current_price :=
    _extract_numeric_field data ["current_price"; "price"; "current"; "last_price"] in
  let risk_reward :=
    _extract_numeric_field data ["risk_reward"; "rr"; "risk_to_reward"; "r_r"] in
  let signal_type := _normalize_signal_type signal_type in
  match entry_price with
  | None => None
  | Some entry =>
      if negb (Py.truthy entry_price) then None
      else if negb (Py.str_in signal_type ["LONG"; "SHORT"; "HOLD"]) then None
      else
        Some {| sd_ticker := ticker;
                sd_timeframe := timeframe;
                sd_signal_type := signal_type;
                sd_entry_price := entry;
                sd_take_profit := SignalValidator.float_if_set take_profit;
                sd_stop_loss := SignalValidator.float_if_set stop_loss;
                sd_confidence := SignalValidator.float_if_set confidence;
                sd_risk_reward := SignalValidator.float_if_set risk_reward;
                sd_current_price :=
                  match current_price with
                  | Some p => if Py.truthy current_price then p else entry
                  | None => entry
                  end;
                sd_status := "new";
                sd_created_at := now;
                sd_signal_category := None;
                sd_correction := None;
                sd_warnings := None |}
  end.

(** [_parse_timeframe_item]. When ['main_signal'] or
    ['correction_signal'] does not hold a dict, [.copy()] raises and the
    handler returns the empty list. *)
Definition _parse_timeframe_item
    (now : Z) (item : list (string * PyVal)) (ticker timeframe : string)
    : list Observation :=
  let nested (key category : string) : option (list Observation) :=
    match dict_get item key with
    | None => Some []
    | Some (PDict d) =>
        let d := dict_set d "current_price" (dict_get_default item "current_price") in
        match _parse_single_signal now d ticker timeframe with
        | Some parsed_signal => Some [set_signal_category parsed_signal category]
        | None => Some []
        end
    | Some _ => None
    end in
  match nested "main_signal" "main" with
  | None => []
  | Some main =>
      match nested "correction_signal" "correction" with
      | None => []
      | Some correction =>
          let signals := (main ++ correction)%list in
          match signals with
          | [] =>
              match _parse_single_signal now item ticker timeframe with
              | Some parsed_signal => [set_signal_category parsed_signal "main"]
              | None => []
              end
          | _ => signals
          end
      end
  end.

End Parser.

End SignalDataParser.

(* ---------------------------------------------------------------------- *)
(** ** signal_analyzer/processor.py : SignalProcessor *)

(** The SQLAlchemy session: the rows of [signals] and of [error_logs]. *)
Record Session := mkSession {
  signals : list Signal;
  error_logs : list ErrorLog
}.

(** The [results] dict of [save_signals_batch]. *)
Record BatchResults := mkBatchResults {
  total_signals : nat;
  saved_signals : nat;
  updated_signals : nat;
  errors : nat;
  tickers_processed : nat
}.

Module SignalProcessor.

(** [timedelta(minutes=30)] *)
Definition FRESHNESS : Z := 30 * 60 * 1000000.

(** The filter of the query in [_find_existing_signal]. *)
Definition matches_query (ticker_ timeframe_ : string) (time_threshold : Z)
    (row : Signal) : bool :=
  (row.(ticker) =? ticker_)
  && (row.(timeframe) =? timeframe_)
  && (time_threshold <=? row.(created_at))%Z
  && Py.str_in row.(status) ["new"; "entry_hit"; "active"].

(** [_find_existing_signal]: the position in the store of the row
    [.first()] returns, the first one the filter accepts. The local
    [signal_category] is read and never used. *)
Definition _find_existing_signal
    (session : Session) (now : Z) (signal_data : Observation) : option (nat * Signal) :=
  let ticker := signal_data.(sd_ticker) in
  let timeframe := signal_data.(sd_timeframe) in
  let signal_category := default "main" signal_data.(sd_signal_category) in
  let time_threshold := (now - FRESHNESS)%Z in
  list_find (fun row => matches_query ticker timeframe time_threshold row)
            session.(signals).

(** [_update_existing_signal]: the row after the assignments, and
    [updated]. On a payload of this type no statement of the body raises,
    so the handler that returns [False] is not entered. *)
Definition _update_existing_signal
    (existing_signal : Signal) (signal_data : Observation) : Signal * bool :=
  let new_current_price := Some signal_data.(sd_current_price) in
  let upd_price :=
    Py.truthy new_current_price
    && Py.opt_neq new_current_price existing_signal.(current_price) in
  let new_confidence := signal_data.(sd_confidence) in
  let upd_confidence :=
    Py.truthy new_confidence
    && Py.opt_neq new_confidence existing_signal.(confidence) in
  let corr := signal_data.(sd_correction) in
  let upd_of {A} (test : Correction -> A -> bool) (old : A) : bool :=
    match corr with Some c => test c old | None => false end in
  let upd_type :=
    upd_of (fun c old => Py.opt_str_neq c.(c_direction) old)
           existing_signal.(correction_type) in
  let upd_entry :=
    upd_of (fun c old => Py.opt_neq c.(c_entry) old)
           existing_signal.(correction_entry) in
  let new_tp :=
    match corr with
    | Some c => match c.(c_tp) with Some (tp0 :: _) => Some tp0 | _ => None end
    | None => None
    end in
  let upd_tp :=
    match new_tp with
    | Some _ => Py.opt_neq new_tp existing_signal.(correction_tp)
    | None => false
    end in
  let upd_sl :=
    upd_of (fun c old => Py.opt_neq c.(c_sl) old) existing_signal.(correction_sl) in
  let upd_conf :=
    upd_of (fun c old => Py.opt_neq c.(c_confidence) old)
           existing_signal.(correction_confidence) in
  let pick {A} (b : bool) (new old : A) : A := if b then new else old in
  let from_corr {A} (f : Correction -> A) (old : A) : A :=
    match corr with Some c => f c | None => old end in
  ({| id := existing_signal.(id);
      ticker := existing_signal.(ticker);
      timeframe := existing_signal.(timeframe);
      signal_type := existing_signal.(signal_type);
      entry_price := existing_signal.(entry_price);
      take_profit := existing_signal.(take_profit);
      stop_loss := existing_signal.(stop_loss);
      confidence := pick upd_confidence new_confidence existing_signal.(confidence);
      risk_reward := existing_signal.(risk_reward);
      current_price :=
        pick upd_price new_current_price existing_signal.(current_price);
      status := existing_signal.(status);
      is_main_signal := existing_signal.(is_main_signal);
      correction_type :=
        pick upd_type (from_corr c_direction None) existing_signal.(correction_type);
      correction_entry :=
        pick upd_entry (from_corr c_entry None) existing_signal.(correction_entry);
      correction_tp := pick upd_tp new_tp existing_signal.(correction_tp);
      correction_sl :=
        pick upd_sl (from_corr c_sl None) existing_signal.(correction_sl);
      correction_confidence :=
        pick upd_conf (from_corr c_confidence None)
             existing_signal.(correction_confidence);
      created_at := existing_signal.(created_at) |},
   upd_price || upd_confidence || upd_type || upd_entry || upd_tp || upd_sl
   || upd_conf).

(** The row [_create_new_signal] hands to [SignalCRUD.create_signal]:
    the keys of [create_data], [None] values left to the column's NULL,
    [created_at] from the column default. *)
Definition new_signal_row (next_id : nat) (now : Z) (signal_data : Observation)
    : Signal :=
  let corr {A} (f : Correction -> option A) : option A :=
    match signal_data.(sd_correction) with Some c => f c | None => None end in
  {| id := next_id;
     ticker := signal_data.(sd_ticker);
     timeframe := signal_data.(sd_timeframe);
     signal_type := signal_data.(sd_signal_type);
     entry_price := signal_data.(sd_entry_price);
     take_profit := signal_data.(sd_take_profit);
     stop_loss := signal_data.(sd_stop_loss);
     confidence := signal_data.(sd_confidence);
     risk_reward := signal_data.(sd_risk_reward);
     current_price := Some signal_data.(sd_current_price);
     status := "new";
     is_main_signal := true;
     correction_type := corr c_direction;
     correction_entry := corr c_entry;
     correction_tp :=
       corr (fun c => match c.(c_tp) with Some (tp0 :: _) => Some tp0 | _ => None end);
     correction_sl := corr c_sl;
     correction_confidence := corr c_confidence;
     created_at := now |}.

(** [_create_new_signal]: the row is added to the session and returned.
    The flush is taken to succeed, so the handler that returns [None] is
    not entered. *)
Definition _create_new_signal
    (session : Session) (now : Z) (signal_data : Observation)
    : Session * option Signal :=
  let new_signal := new_signal_row (S (length session.(signals))) now signal_data in
  ({| signals := session.(signals) ++ [new_signal];
      error_logs := session.(error_logs) |},
   Some new_signal).

(** [ErrorLogCRUD.log_error] *)
Definition log_error (session : Session) (source message : string) : Session :=
  {| signals := session.(signals);
     error_logs := session.(error_logs) ++ [ {| source := source; message := message |} ] |}.

Section Batch.

(** [str(e)] when the query of [_find_existing_signal] raises for this
    observation, [None] when it returns. *)
Variable query_error : Observation -> option string.

(** The body of the inner loop of [save_signals_batch], for one
    [signal_data] of [ticker]. *)
Definition save_signal (now : Z) (ticker : string)
    (acc : Session * BatchResults) (signal_data : Observation)
    : Session * BatchResults :=
  let '(session, results) := acc in
  let total := S results.(total_signals) in
  match query_error signal_data with
  | Some e =>
      let error_msg :=
        "💥 Ошибка сигнала " ++ ticker ++ " " ++ signal_data.(sd_timeframe)
        ++ ": " ++ e in
      (log_error session "SignalProcessor" error_msg,
       {| total_signals := total;
          saved_signals := results.(saved_signals);
          updated_signals := results.(updated_signals);
          errors := S results.(errors);
          tickers_processed := results.(tickers_processed) |})
  | None =>
      match _find_existing_signal session now signal_data with
      | Some (i, existing_signal) =>
          let '(row, updated) := _update_existing_signal existing_signal signal_data in
          ({| signals := <[i := row]> session.(signals);
              error_logs := session.(error_logs) |},
           {| total_signals := total;
              saved_signals := results.(saved_signals);
              updated_signals :=
                if updated then S results.(updated_signals)
                else results.(updated_signals);
              errors := results.(errors);
              tickers_processed := results.(tickers_processed) |})
      | None =>
          let '(session', new_signal) := _create_new_signal session now signal_data in
          (session',
           {| total_signals := total;
              saved_signals :=
                match new_signal with
                | Some _ => S results.(saved_signals)
                | None => results.(saved_signals)
                end;
              updated_signals := results.(updated_signals);
              errors := results.(errors);
              tickers_processed := results.(tickers_processed) |})
      end
  end.

(** The body of the outer loop: one [(ticker, signals_list)] item. *)
Definition save_ticker (now : Z) (acc : Session * BatchResults)
    (item : string * list Observation) : Session * BatchResults :=
  let '(ticker, signals_list) := item in
  match signals_list with
  | [] => acc
  | _ =>
      let '(session, results) := acc in
      fold_left (save_signal now ticker) signals_list
        (session,
         {| total_signals := results.(total_signals);
            saved_signals := results.(saved_signals);
            updated_signals := results.(updated_signals);
            errors := results.(errors);
            tickers_processed := S results.(tickers_processed) |})
  end.

(** [save_signals_batch], the clock read once for the whole batch. A
    failure of the session as a whole, which the source turns into
    [DatabaseError], is not part of the model. *)
Definition save_signals_batch (session : Session) (now : Z)
    (signals_data : list (string * list Observation)) : Session * BatchResults :=
  fold_left (save_ticker now) signals_data
    (session,
     {| total_signals := 0; saved_signals := 0; updated_signals := 0;
        errors := 0; tickers_processed := 0 |}).

End Batch.

End SignalProcessor.

(* ---------------------------------------------------------------------- *)
(** ** signal_analyzer/manager.py : SignalManager, steps 3 and 4 of a cycle *)

Module SignalManager.

Section Cycle.

Variable float_of_str : string -> option Q.
Variable format_float : Q -> string.
Variable query_error : Observation -> option string.

(** [SignalDataParser.parse_signal_response] on a list payload; every
    dict of the payload comes with the text it holds under
    ['timeframe'] (['1h'] when it has none). *)
Definition parse_signal_response
    (now : Z) (data : list (string * list (string * PyVal))) (ticker : string)
    : list Observation :=
  flat_map
    (fun '(timeframe, item) =>
       SignalDataParser._parse_timeframe_item float_of_str now item ticker timeframe)
    data.

(** Step 3 of [fetch_and_process_all_signals]: [processed_signals],
    a ticker being kept when parsing yields at least one signal. *)
Fixpoint parse_and_analyze
    (now : Z) (raw_signals_data : list (string * list (string * list (string * PyVal))))
    : list (string * list Observation) :=
  match raw_signals_data with
  | [] => []
  | (ticker, api_data) :: rest =>
      match parse_signal_response now api_data ticker with
      | [] => parse_and_analyze now rest
      | parsed =>
          (ticker, ConfidenceAnalyzer.analyze_confidence_warnings format_float parsed)
          :: parse_and_analyze now rest
      end
  end.

(** Steps 3 and 4: parse, annotate, save. *)
Definition parse_and_save
    (session : Session) (now : Z)
    (raw_signals_data : list (string * list (string * list (string * PyVal))))
    : Session * BatchResults :=
  SignalProcessor.save_signals_batch query_error session now
    (parse_and_analyze now raw_signals_data).

End Cycle.

End SignalManager.

(* ---------------------------------------------------------------------- *)
(** ** scheduler/tasks.py : SignalScheduler *)

Module SignalScheduler.

(** What [signal_manager.fetch_and_process_all_signals()] returns. *)
Record CycleResults := mkCycleResults {
  processing_time : Q;
  signals_saved : nat;
  signals_updated : nat
}.

(** How a call of [fetch_and_process_all_signals] ends. *)
Inductive CycleOutcome :=
| Returned (results : CycleResults)
| Raised (e : string).

(** The dict stored in [last_run_result]. *)
Record RunResult := mkRunResult {
  success : bool;
  start_time : Z;
  end_time : Z;
  duration : option Q;
  results : option CycleResults;
  error : option string
}.

(** A [threading.Thread] whose target is [_execute_signal_processing]:
    started, inside the body since [job_start], or terminated. *)
Inductive Thread :=
| Started
| Running (job_start : Z)
| Finished.

(** [Thread.is_alive()]: from [start()] until the target returns. *)
Definition is_alive (t : Thread) : bool :=
  match t with
  | Finished => false
  | _ => true
  end.

(** The scheduler object, the threads it has started (a thread is named
    by its position), the calls of [fetch_and_process_all_signals] made
    from the job thread and from [run_manual], and [schedule.next_run()]. *)
Record Scheduler := mkScheduler {
  is_running : bool;
  shutdown_requested : bool;
  job_thread : option nat;
  last_run_time : option Z;
  last_run_result : option RunResult;
  total_runs : nat;
  successful_runs : nat;
  failed_runs : nat;
  threads : list Thread;
  thread_cycles : nat;
  manual_cycles : nat;
  next_run : option Z
}.

(** [__init__] *)
Definition init : Scheduler :=
  {| is_running := false; shutdown_requested := false; job_thread := None;
     last_run_time := None; last_run_result := None;
     total_runs := 0; successful_runs := 0; failed_runs := 0;
     threads := []; thread_cycles := 0; manual_cycles := 0; next_run := None |}.

(** [self.job_thread and self.job_thread.is_alive()] *)
Definition job_alive (self : Scheduler) : bool :=
  match self.(job_thread) with
  | Some i => match self.(threads) !! i with
              | Some t => is_alive t
              | None => false
              end
  | None => false
  end.

(** [_run_signal_processing_job] *)
Definition _run_signal_processing_job (self : Scheduler) : Scheduler :=
  if job_alive self then self
  else
    {| is_running := self.(is_running);
       shutdown_requested := self.(shutdown_requested);
       job_thread := Some (length self.(threads));
       last_run_time := self.(last_run_time);
       last_run_result := self.(last_run_result);
       total_runs := self.(total_runs);
       successful_runs := self.(successful_runs);
       failed_runs := self.(failed_runs);
       threads := self.(threads) ++ [Started];
       thread_cycles := self.(thread_cycles);
       manual_cycles := self.(manual_cycles);
       next_run := self.(next_run) |}.

(** [_execute_signal_processing] in thread [i], up to the call of
    [fetch_and_process_all_signals]. *)
Definition _execute_signal_processing_begin
    (self : Scheduler) (i : nat) (job_start : Z) : Scheduler :=
  {| is_running := self.(is_running);
     shutdown_requested := self.(shutdown_requested);
     job_thread := self.(job_thread);
     last_run_time := Some job_start;
     last_run_result := self.(last_run_result);
     total_runs := S self.(total_runs);
     successful_runs := self.(successful_runs);
     failed_runs := self.(failed_runs);
     threads := <[i := Running job_start]> self.(threads);
     thread_cycles := S self.(thread_cycles);
     manual_cycles := self.(manual_cycles);
     next_run := self.(next_run) |}.

(** [_execute_signal_processing] in thread [i], from the end of the call
    to the end of the body; [now] is the reading of [datetime.utcnow()]. *)
Definition _execute_signal_processing_end
    (self : Scheduler) (i : nat) (job_start now : Z) (outcome : CycleOutcome)
    : Scheduler :=
  {| is_running := self.(is_running);
     shutdown_requested := self.(shutdown_requested);
     job_thread := self.(job_thread);
     last_run_time := self.(last_run_time);
     last_run_result :=
       Some match outcome with
            | Returned r =>
                {| success := true; start_time := job_start; end_time := now;
                   duration := Some r.(processing_time); results := Some r;
                   error := None |}
            | Raised e =>
                {| success := false; start_time := job_start; end_time := now;
                   duration := None; results := None; error := Some e |}
            end;
     total_runs := self.(total_runs);
     successful_runs :=
       match outcome with
       | Returned _ => S self.(successful_runs)
       | Raised _ => self.(successful_runs)
       end;
     failed_runs :=
       match outcome with
       | Returned _ => self.(failed_runs)
       | Raised _ => S self.(failed_runs)
       end;
     threads := <[i := Finished]> self.(threads);
     thread_cycles := self.(thread_cycles);
     manual_cycles := self.(manual_cycles);
     next_run := self.(next_run) |}.

(** The dict [run_manual] returns. *)
Record ManualResult := mkManualResult {
  m_success : bool;
  m_results : option CycleResults;
  m_error : option string
}.

(** [run_manual]; [outcome] is how the call of
    [fetch_and_process_all_signals] ends when it is made. *)
Definition run_manual (self : Scheduler) (outcome : CycleOutcome)
    : Scheduler * ManualResult :=
  if job_alive self then
    (self,
     {| m_success := false; m_results := None;
        m_error := Some "Уже выполняется другая задача" |})
  else
    ({| is_running := self.(is_running);
        shutdown_requested := self.(shutdown_requested);
        job_thread := self.(job_thread);
        last_run_time := self.(last_run_time);
        last_run_result := self.(last_run_result);
        total_runs := self.(total_runs);
        successful_runs := self.(successful_runs);
        failed_runs := self.(failed_runs);
        threads := self.(threads);
        thread_cycles := self.(thread_cycles);
        manual_cycles := S self.(manual_cycles);
        next_run := self.(next_run) |},
     match outcome with
     | Returned r => {| m_success := true; m_results := Some r; m_error := None |}
     | Raised e => {| m_success := false; m_results := None; m_error := Some e |}
     end).

(** The dict [get_status] returns; a time stands for its [isoformat()]. *)
Record Status := mkStatus {
  st_is_running : bool;
  st_total_runs : nat;
  st_successful_runs : nat;
  st_failed_runs : nat;
  st_success_rate : Q;
  st_last_run_time : option Z;
  st_last_run_success : option bool;
  st_next_run_time : option Z
}.

(** [get_status] *)
Definition get_status (self : Scheduler) : Status :=
  {| st_is_running := self.(is_running);
     st_total_runs := self.(total_runs);
     st_successful_runs := self.(successful_runs);
     st_failed_runs := self.(failed_runs);
     st_success_rate :=
       if (0 <? self.(total_runs))%nat then
         (inject_Z (Z.of_nat self.(successful_runs))
          / inject_Z (Z.of_nat self.(total_runs)) * 100)%Q
       else 0%Q;
     st_last_run_time := self.(last_run_time);
     st_last_run_success :=
       match self.(last_run_result) with
       | Some r => Some r.(success)
       | None => None
       end;
     st_next_run_time := self.(next_run) |}.

(** What can happen to a scheduler: the schedule fires the job, a started
    thread enters its body, a running thread leaves it, [run_manual] is
    called. *)
Inductive Event :=
| Trigger
| ThreadBegin (i : nat) (job_start : Z)
| ThreadEnd (i : nat) (now : Z) (outcome : CycleOutcome)
| Manual (outcome : CycleOutcome).

(** One event; an event of a thread that is not in the phase it needs
    does not happen. *)
Definition step (self : Scheduler) (ev : Event) : Scheduler :=
  match ev with
  | Trigger => _run_signal_processing_job self
  | ThreadBegin i job_start =>
      match self.(threads) !! i with
      | Some Started => _execute_signal_processing_begin self i job_start
      | _ => self
      end
  | ThreadEnd i now outcome =>
      match self.(threads) !! i with
      | Some (Running job_start) =>
          _execute_signal_processing_end self i job_start now outcome
      | _ => self
      end
  | Manual outcome => fst (run_manual self outcome)
  end.

Definition run (self : Scheduler) (evs : list Event) : Scheduler :=
  fold_left step evs self.

(** The cycles executed so far, by either path. *)
Definition executed_cycles (self : Scheduler) : nat :=
  self.(thread_cycles) + self.(manual_cycles).

(** The threads that are alive. *)
Definition alive_threads (self : Scheduler) : nat :=
  length (List.filter is_alive self.(threads)).

End SignalScheduler.

(* ---------------------------------------------------------------------- *)
(** ** signal_analyzer/validator.py : validate_active_signals *)

Module ActiveSignals.

(** The [results] dict of [validate_active_signals]. *)
Record ValidationResults := mkValidationResults {
  checked_signals : nat;
  entry_hits : nat;
  take_profit_hits : nat;
  stop_loss_hits : nat;
  still_active : nat;
  errors : nat
}.

(** The filter of [SignalCRUD.get_active_signals]. *)
Definition is_active (row : Signal) : bool :=
  Py.str_in row.(status) ["new"; "entry_hit"; "active"].

(** [SignalCRUD.get_active_signals] *)
Definition get_active_signals (session : Session) : list Signal :=
  List.filter is_active session.(signals).

(** [current_prices[ticker]] when [ticker in current_prices]. *)
Fixpoint prices_get (current_prices : list (string * Q)) (key : string) : option Q :=
  match current_prices with
  | [] => None
  | (k, v) :: rest => if k =? key then Some v else prices_get rest key
  end.

(** The price a signal is checked against: the one of [current_prices]
    for its ticker when there is one, otherwise its stored
    [current_price] when that is set; an empty dict and no dict at all
    read the same. *)
Definition price_for (current_prices : list (string * Q)) (signal : Signal)
    : option Q :=
  match prices_get current_prices signal.(ticker) with
  | Some p => Some p
  | None => SignalValidator.float_if_set signal.(current_price)
  end.

(** The body of the loop of [validate_active_signals] for one active
    signal. [id] is the primary key, so the row
    [SignalCRUD.update_signal_status] finds is the signal itself. On a row
    of this type nothing in the body raises: the handler that counts
    [errors] is not entered. *)
Definition check_signal (current_prices : list (string * Q))
    (acc : list Signal * ValidationResults) (signal : Signal)
    : list Signal * ValidationResults :=
  let '(done, results) := acc in
  let checked := S results.(checked_signals) in
  match price_for current_prices signal with
  | None =>
      ((done ++ [signal])%list,
       {| checked_signals := checked;
          entry_hits := results.(entry_hits);
          take_profit_hits := results.(take_profit_hits);
          stop_loss_hits := results.(stop_loss_hits);
          still_active := results.(still_active);
          errors := results.(errors) |})
  | Some current_price =>
      let new_status := SignalValidator._check_signal_execution signal current_price in
      if negb (new_status =? signal.(status)) then
        ((done ++ [SignalValidator.update_signal_status signal new_status
                     (Some current_price)])%list,
         {| checked_signals := checked;
            entry_hits :=
              if new_status =? "entry_hit" then S results.(entry_hits)
              else results.(entry_hits);
            take_profit_hits :=
              if new_status =? "entry_hit" then results.(take_profit_hits)
              else if new_status =? "tp_hit" then S results.(take_profit_hits)
              else results.(take_profit_hits);
            stop_loss_hits :=
              if new_status =? "entry_hit" then results.(stop_loss_hits)
              else if new_status =? "tp_hit" then results.(stop_loss_hits)
              else if new_status =? "sl_hit" then S results.(stop_loss_hits)
              else results.(stop_loss_hits);
            still_active := results.(still_active);
            errors := results.(errors) |})
      else
        ((done ++ [signal])%list,
         {| checked_signals := checked;
            entry_hits := results.(entry_hits);
            take_profit_hits := results.(take_profit_hits);
            stop_loss_hits := results.(stop_loss_hits);
            still_active := S results.(still_active);
            errors := results.(errors) |})
  end.

(** One row of the store: an active one is checked, another one is not
    among the rows the query returns. *)
Definition visit (current_prices : list (string * Q))
    (acc : list Signal * ValidationResults) (row : Signal)
    : list Signal * ValidationResults :=
  if is_active row then check_signal current_prices acc row
  else ((fst acc ++ [row])%list, snd acc).

(** [validate_active_signals]: the store and the [results] it returns. A
    failure of the session as a whole, which the source counts as one
    error, is not part of the model. *)
Definition validate_active_signals (session : Session)
    (current_prices : list (string * Q)) : Session * ValidationResults :=
  let '(rows, results) :=
    fold_left (visit current_prices) session.(signals)
      ([], {| checked_signals := 0; entry_hits := 0; take_profit_hits := 0;
              stop_loss_hits := 0; still_active := 0; errors := 0 |}) in
  ({| signals := rows; error_logs := session.(error_logs) |}, results).

End ActiveSignals.

(* ---------------------------------------------------------------------- *)
(** ** scheduler/tasks.py : stop *)

Module SchedulerStop.

Import SignalScheduler.

(** [max_wait], in seconds. *)
Definition max_wait : nat := 240.

(** The waiting loop of [stop]. [alive_after t] is what
    [job_thread.is_alive()] answers [t] seconds after the loop was
    entered, a [time.sleep(10)] taking ten seconds; [waited] counts them.
    Twenty-four rounds bring [waited] to [max_wait]. *)
Fixpoint wait_loop (rounds : nat) (alive_after : nat -> bool) (waited : nat) : nat :=
  match rounds with
  | 0 => waited
  | S rounds' =>
      if alive_after waited && (waited <? max_wait)%nat
      then wait_loop rounds' alive_after (waited + 10)
      else waited
  end.

(** [stop]: the scheduler after the call and the seconds it waited for
    the job thread. *)
Definition stop (self : Scheduler) (alive_after : nat -> bool) : Scheduler * nat :=
  ({| is_running := false;
      shutdown_requested := true;
      job_thread := self.(job_thread);
      last_run_time := self.(last_run_time);
      last_run_result := self.(last_run_result);
      total_runs := self.(total_runs);
      successful_runs := self.(successful_runs);
      failed_runs := self.(failed_runs);
      threads := self.(threads);
      thread_cycles := self.(thread_cycles);
      manual_cycles := self.(manual_cycles);
      next_run := self.(next_run) |},
   if job_alive self then wait_loop 24 alive_after 0 else 0).

End SchedulerStop.

(* ---------------------------------------------------------------------- *)
(** ** api_client/fetcher.py *)

Module SignalAPIClient.

(** What the handlers read of [e.response]. *)
Record Response := mkResponse {
  status_code : Z;
  text : string
}.

(** How one pass through the [try] of [get_multi_signal] ends: with the
    decoded body, or in the [except] clause that catches what was
    raised. *)
Inductive Attempt :=
| Data (data : PyVal)
| Timeout
| ConnectionError
| HTTPError (response : option Response)
| JSONError
| Unexpected.

(** What [get_multi_signal] returns ([PNone] for [None]), the requests it
    sent and the seconds it slept between them. *)
Record Fetched := mkFetched {
  result : PyVal;
  requests : nat;
  slept : nat
}.

Section Client.

(** The truth value of a response object, as [e.response and ...] reads
    it. *)
Variable response_truthy : Response -> bool.

(** How the pass with index [attempt] ends. *)
Variable request : nat -> Attempt.

(** [e.response and 400 <= e.response.status_code < 500] *)
Definition client_error (response : option Response) : bool :=
  match response with
  | Some r =>
      response_truthy r
      && (400 <=? r.(status_code))%Z && (r.(status_code) <? 500)%Z
  | None => false
  end.

(** The loop [for attempt in range(retries + 1)], [passes] passes of it
    being left. *)
Fixpoint attempts (passes : nat) (retries : Z) (attempt : nat) (waited : nat)
    : Fetched :=
  match passes with
  | 0 => {| result := PNone; requests := attempt; slept := waited |}
  | S passes' =>
      let none := {| result := PNone; requests := S attempt; slept := waited |} in
      match request attempt with
      | Data data =>
          {| result := data; requests := S attempt; slept := waited |}
      | Timeout =>
          if (Z.of_nat attempt <? retries)%Z
          then attempts passes' retries (S attempt) (waited + 1)
          else none
      | ConnectionError =>
          if (Z.of_nat attempt <? retries)%Z
          then attempts passes' retries (S attempt) (waited + 2)
          else none
      | HTTPError response =>
          if client_error response then none
          else if (Z.of_nat attempt <? retries)%Z
          then attempts passes' retries (S attempt) (waited + 3)
          else none
      | JSONError => none
      | Unexpected => none
      end
  end.

(** [get_multi_signal] *)
Definition get_multi_signal (retries : Z) : Fetched :=
  attempts (Z.to_nat (retries + 1)) retries 0 0.

End Client.

Section ClientBatch.

Variable response_truthy : Response -> bool.

(** How the pass [attempt] of the call of [get_multi_signal] with index
    [i] ends. *)
Variable request : nat -> nat -> Attempt.

(** The dict [get_signals_batch] returns, the requests it sent and the
    pauses of [delay] seconds it made between two tickers. *)
Record Fetches := mkFetches {
  results : list (string * PyVal);
  sent : nat;
  delays : nat
}.

(** The body of the loop of [get_signals_batch] for the ticker of index
    [i]; [get_multi_signal] is called with its default of two retries, and
    raises nothing. *)
Definition fetch_ticker (acc : Fetches) (i : nat) (ticker : string) : Fetches :=
  let fetched := get_multi_signal response_truthy (request i) 2 in
  {| results := SignalDataParser.dict_set acc.(results) ticker fetched.(result);
     sent := acc.(sent) + fetched.(requests);
     delays := if (0 <? i)%nat then S acc.(delays) else acc.(delays) |}.

(** The loop over [enumerate(tickers)], from index [i] on. *)
Fixpoint fetch_from (i : nat) (tickers : list string) (acc : Fetches) : Fetches :=
  match tickers with
  | [] => acc
  | ticker :: rest => fetch_from (S i) rest (fetch_ticker acc i ticker)
  end.

(** [get_signals_batch] *)
Definition get_signals_batch (tickers : list string) : Fetches :=
  fetch_from 0 tickers {| results := []; sent := 0; delays := 0 |}.

End ClientBatch.

End SignalAPIClient.

(* ---------------------------------------------------------------------- *)
(** ** signal_analyzer/manager.py : the processing cycle *)

Module SignalCycle.

(** [current_prices[key] = value] *)
Fixpoint prices_set (current_prices : list (string * Q)) (key : string) (value : Q)
    : list (string * Q) :=
  match current_prices with
  | [] => [(key, value)]
  | (k, v) :: rest =>
      if k =? key then (k, value) :: rest
      else (k, v) :: prices_set rest key value
  end.

(** The body of the loop that collects [current_prices]: the price of a
    ticker is the ['current_price'] of its first signal, when that is not
    zero. *)
Definition collect_price (current_prices : list (string * Q))
    (item : string * list Observation) : list (string * Q) :=
  let '(ticker, signals) := item in
  match signals with
  | first :: _ =>
      if Py.truthy (Some first.(sd_current_price))
      then prices_set current_prices ticker first.(sd_current_price)
      else current_prices
  | [] => current_prices
  end.

Definition collect_current_prices (processed_signals : list (string * list Observation))
    : list (string * Q) :=
  fold_left collect_price processed_signals [].

(** The counters of [results] that steps 4 and 5 write. *)
Record CycleCounts := mkCycleCounts {
  signals_saved : nat;
  signals_updated : nat;
  entry_hits : nat;
  take_profit_hits : nat;
  stop_loss_hits : nat
}.

Section Cycle.

Variable float_of_str : string -> option Q.
Variable format_float : Q -> string.
Variable query_error : Observation -> option string.

(** Steps 3 to 5 of [fetch_and_process_all_signals], on the entries of
    [raw_signals_data] that hold a list (an entry that holds [None] is
    counted in [api_errors] and skipped): parse and annotate, save, collect
    the current prices, validate the active signals. The notifications of
    step 6 do not write to the store. *)
Definition fetch_and_process_all_signals
    (session : Session) (now : Z)
    (raw_signals_data : list (string * list (string * list (string * PyVal))))
    : Session * CycleCounts :=
  let processed_signals :=
    SignalManager.parse_and_analyze float_of_str format_float now raw_signals_data in
  let '(saved, save_results) :=
    match processed_signals with
    | [] =>
        (session,
         {| total_signals := 0; saved_signals := 0; updated_signals := 0;
            errors := 0; tickers_processed := 0 |})
    | _ => SignalProcessor.save_signals_batch query_error session now processed_signals
    end in
  let current_prices := collect_current_prices processed_signals in
  let '(validated, validation_results) :=
    ActiveSignals.validate_active_signals saved current_prices in
  (validated,
   {| signals_saved := save_results.(saved_signals);
      signals_updated := save_results.(updated_signals);
      entry_hits := validation_results.(ActiveSignals.entry_hits);
      take_profit_hits := validation_results.(ActiveSignals.take_profit_hits);
      stop_loss_hits := validation_results.(ActiveSignals.stop_loss_hits) |}).

End Cycle.

End SignalCycle.

(* ---------------------------------------------------------------------- *)
(** ** signal_analyzer/validator.py : get_confidence_summary *)

Module ConfidenceSummary.

(** The dict [get_confidence_summary] returns when it is not empty. *)
Record Summary := mkSummary {
  avg_confidence : Q;
  max_confidence : Q;
  min_confidence : Q;
  high_confidence_count : nat;
  low_confidence_count : nat;
  total_signals : nat
}.

(** [[s.get('confidence', 0) for s in signals
      if s.get('confidence') is not None]] *)
Fixpoint confidences (signals : list Observation) : list Q :=
  match signals with
  | [] => []
  | s :: rest =>
      match s.(sd_confidence) with
      | Some c => c :: confidences rest
      | None => confidences rest
      end
  end.

(** [max] of a list that is not empty: an item replaces the one kept
    when it is greater. *)
Definition py_max (first : Q) (rest : list Q) : Q :=
  fold_left (fun kept item => if Py.Qlt_bool kept item then item else kept)
    rest first.

(** [min] of a list that is not empty: an item replaces the one kept
    when it is less. *)
Definition py_min (first : Q) (rest : list Q) : Q :=
  fold_left (fun kept item => if Py.Qlt_bool item kept then item else kept)
    rest first.

Section Summary.

(** [sum(confidences) / len(confidences)], in floating point. *)
Variable float_mean : list Q -> Q.

(** [get_confidence_summary]; [None] stands for the empty dict. *)
Definition get_confidence_summary (signals : list Observation) : option Summary :=
  match signals with
  | [] => None
  | _ =>
      match confidences signals with
      | [] => None
      | first :: rest =>
          Some {| avg_confidence := float_mean (first :: rest);
                  max_confidence := py_max first rest;
                  min_confidence := py_min first rest;
                  high_confidence_count :=
                    length (List.filter
                              (fun c => Qle_bool ConfidenceAnalyzer.HIGH_CONFIDENCE_THRESHOLD c)
                              (first :: rest));
                  low_confidence_count :=
                    length (List.filter
                              (fun c => Py.Qlt_bool c ConfidenceAnalyzer.LOW_CONFIDENCE_THRESHOLD)
                              (first :: rest));
                  total_signals := length (first :: rest) |}
      end
  end.

End Summary.

End ConfidenceSummary.

(* ---------------------------------------------------------------------- *)
(** * Properties *)

Local Open Scope list_scope.

(** ** Vocabulary of the execution state machine *)

(** The direction the validator reads: the upper-cased [signal_type]. *)
Definition is_long (s : Signal) : Prop := Py.upper s.(signal_type) = "LONG".
Definition is_short (s : Signal) : Prop := Py.upper s.(signal_type) = "SHORT".

(** The signal is in status ['entry_hit'] or ['active']. *)
Definition in_position (s : Signal) : Prop :=
  s.(status) = "entry_hit" \/ s.(status) = "active".

(** The stop-loss condition at price [p]: LONG, [p <= stop_loss];
    SHORT, [p >= stop_loss]. *)
Definition stop_condition (s : Signal) (p : Q) : Prop :=
  exists sl, s.(stop_loss) = Some sl
             /\ ((is_long s /\ (p <= sl)%Q) \/ (is_short s /\ (sl <= p)%Q)).

(** The take-profit condition at price [p]: LONG, [p >= take_profit];
    SHORT, [p <= take_profit]. *)
Definition take_condition (s : Signal) (p : Q) : Prop :=
  exists tp, s.(take_profit) = Some tp
             /\ ((is_long s /\ (tp <= p)%Q) \/ (is_short s /\ (p <= tp)%Q)).

(** The entry condition at price [p]: LONG, [p <= entry_price];
    SHORT, [p >= entry_price]. *)
Definition entry_condition (s : Signal) (p : Q) : Prop :=
  (is_long s /\ (p <= s.(entry_price))%Q)
  \/ (is_short s /\ (s.(entry_price) <= p)%Q).

(** A level the validator does not see: NULL, or stored as zero. *)
Definition unset (x : option Q) : Prop :=
  match x with
  | None => True
  | Some q => (q == 0)%Q
  end.

(** The place of a status in [new -> entry_hit -> active -> {tp_hit, sl_hit}];
    every other status (['closed']) is final. *)
Definition status_rank (st : string) : nat :=
  if st =? "new" then 0
  else if st =? "entry_hit" then 1
  else if st =? "active" then 2
  else 3.

(** A SHORT signal in position whose stop-loss is stored as zero. *)
Definition short_zero_stop : Signal :=
  {| id := 1; ticker := "BTC"; timeframe := "1h"; signal_type := "SHORT";
     entry_price := 120; take_profit := Some 100%Q; stop_loss := Some 0%Q;
     confidence := None; risk_reward := None; current_price := None;
     status := "active"; is_main_signal := true;
     correction_type := None; correction_entry := None; correction_tp := None;
     correction_sl := None; correction_confidence := None; created_at := 0 |}.

(** A LONG signal with [entry=100, tp=110, sl=90] in the given status. *)
Definition long_100 (st : string) : Signal :=
  {| id := 1; ticker := "BTC"; timeframe := "1h"; signal_type := "LONG";
     entry_price := 100; take_profit := Some 110%Q; stop_loss := Some 90%Q;
     confidence := None; risk_reward := None; current_price := None;
     status := st; is_main_signal := true;
     correction_type := None; correction_entry := None; correction_tp := None;
     correction_sl := None; correction_confidence := None; created_at := 0 |}.

(** The pathological LONG signal with inverted levels [tp=95, sl=105]. *)
Definition long_inverted : Signal :=
  {| id := 1; ticker := "BTC"; timeframe := "1h"; signal_type := "LONG";
     entry_price := 100; take_profit := Some 95%Q; stop_loss := Some 105%Q;
     confidence := None; risk_reward := None; current_price := None;
     status := "active"; is_main_signal := true;
     correction_type := None; correction_entry := None; correction_tp := None;
     correction_sl := None; correction_confidence := None; created_at := 0 |}.

(** ** Vocabulary of the annotator *)

(** The list holds a warning of the given type. *)
Definition has_warning (ws : list Warning) (t : string) : Prop :=
  exists w, In w ws /\ w.(w_type) = t.

(** Every key of the observation but ['warnings'] holds the same value. *)
Definition same_but_warnings (a b : Observation) : Prop :=
  a.(sd_ticker) = b.(sd_ticker)
  /\ a.(sd_timeframe) = b.(sd_timeframe)
  /\ a.(sd_signal_type) = b.(sd_signal_type)
  /\ a.(sd_entry_price) = b.(sd_entry_price)
  /\ a.(sd_take_profit) = b.(sd_take_profit)
  /\ a.(sd_stop_loss) = b.(sd_stop_loss)
  /\ a.(sd_confidence) = b.(sd_confidence)
  /\ a.(sd_risk_reward) = b.(sd_risk_reward)
  /\ a.(sd_current_price) = b.(sd_current_price)
  /\ a.(sd_status) = b.(sd_status)
  /\ a.(sd_created_at) = b.(sd_created_at)
  /\ a.(sd_signal_category) = b.(sd_signal_category)
  /\ a.(sd_correction) = b.(sd_correction).

(** ** Vocabulary of the upsert engine *)



(** The two rows agree on the contract of the signal. *)
Definition same_contract (a b : Signal) : Prop :=
  a.(entry_price) = b.(entry_price)
  /\ a.(take_profit) = b.(take_profit)
  /\ a.(stop_loss) = b.(stop_loss)
  /\ a.(signal_type) = b.(signal_type).

(** The two rows agree on every column but [current_price], [confidence]
    and the correction columns. *)
Definition same_outside_merge (a b : Signal) : Prop :=
  same_contract a b
  /\ a.(id) = b.(id)
  /\ a.(ticker) = b.(ticker)
  /\ a.(timeframe) = b.(timeframe)
  /\ a.(risk_reward) = b.(risk_reward)
  /\ a.(status) = b.(status)
  /\ a.(is_main_signal) = b.(is_main_signal)
  /\ a.(created_at) = b.(created_at).

(** A store that answers every query. *)
Definition no_query_error : Observation -> option string := fun _ => None.


(** A reader of numbers for payloads that hold no number as a text. *)
Definition no_text_number : string -> option Q := fun _ => None.

(** A printer of floats whose text is left blank. *)
Definition blank_float : Q -> string := fun _ => "".

Definition empty_session : Session := {| signals := []; error_logs := [] |}.


(** The observation [(ticker=BTC, tf=1h, direction=LONG, tp=52000,
    sl=48000, confidence=80)] with the given entry, which is also its
    current price. *)
Definition btc_1h (entry : Q) : Observation :=
  {| sd_ticker := "BTC"; sd_timeframe := "1h"; sd_signal_type := "LONG";
     sd_entry_price := entry; sd_take_profit := Some 52000%Q;
     sd_stop_loss := Some 48000%Q; sd_confidence := Some 80%Q;
     sd_risk_reward := None; sd_current_price := entry;
     sd_status := "new"; sd_created_at := 0; sd_signal_category := Some "main";
     sd_correction := None; sd_warnings := Some [] |}.


Definition zero_results : BatchResults :=
  {| total_signals := 0; saved_signals := 0; updated_signals := 0;
     errors := 0; tickers_processed := 0 |}.

(** ** Vocabulary of the parser *)

(** The entry price [_parse_single_signal] reads from a raw item. *)
Definition entry_of (float_of_str : string -> option Q)
    (data : list (string * PyVal)) : option Q :=
  SignalDataParser._extract_numeric_field float_of_str data
    ["entry"; "entry_price"; "price"].

(** A raw item of the flat single-signal shape. *)
Definition flat_item (item : list (string * PyVal)) : Prop :=
  SignalDataParser.dict_get item "main_signal" = None
  /\ SignalDataParser.dict_get item "correction_signal" = None.


(** The observations of a batch, in the order they are processed. *)
Definition observations (signals_data : list (string * list Observation))
    : list Observation :=
  flat_map snd signals_data.

(** A raw item: direction, entry, take-profit, stop-loss, confidence. *)
Definition raw_item (direction : string) (entry tp sl : Q) (conf : Z)
    : list (string * PyVal) :=
  [("type", PStr direction); ("entry", PFloat entry); ("tp", PFloat tp);
   ("sl", PFloat sl); ("confidence", PInt conf)].

(** A raw HOLD item that carries an entry price. *)
Definition hold_item : list (string * PyVal) :=
  [("type", PStr "HOLD"); ("entry", PFloat 150); ("confidence", PInt 60)].



(** ** Vocabulary of the scheduler *)

(** What holds of every scheduler the events can produce: the counter of
    runs is the number of cycles executed by job threads, and a thread that
    is alive is the one [job_thread] names. *)
Definition ledger_invariant (self : SignalScheduler.Scheduler) : Prop :=
  self.(SignalScheduler.total_runs) = self.(SignalScheduler.thread_cycles)
  /\ forall j t, self.(SignalScheduler.threads) !! j = Some t ->
                 SignalScheduler.is_alive t = true ->
                 self.(SignalScheduler.job_thread) = Some j.

(** The scheduler with the count of manual cycles put aside. *)
Definition without_manual (self : SignalScheduler.Scheduler)
    : SignalScheduler.Scheduler :=
  {| SignalScheduler.is_running := self.(SignalScheduler.is_running);
     SignalScheduler.shutdown_requested := self.(SignalScheduler.shutdown_requested);
     SignalScheduler.job_thread := self.(SignalScheduler.job_thread);
     SignalScheduler.last_run_time := self.(SignalScheduler.last_run_time);
     SignalScheduler.last_run_result := self.(SignalScheduler.last_run_result);
     SignalScheduler.total_runs := self.(SignalScheduler.total_runs);
     SignalScheduler.successful_runs := self.(SignalScheduler.successful_runs);
     SignalScheduler.failed_runs := self.(SignalScheduler.failed_runs);
     SignalScheduler.threads := self.(SignalScheduler.threads);
     SignalScheduler.thread_cycles := self.(SignalScheduler.thread_cycles);
     SignalScheduler.manual_cycles := 0;
     SignalScheduler.next_run := self.(SignalScheduler.next_run) |}.

(** The result of a cycle used in the examples. *)
Definition some_results : SignalScheduler.CycleResults :=
  {| SignalScheduler.processing_time := 12;
     SignalScheduler.signals_saved := 3;
     SignalScheduler.signals_updated := 1 |}.

(** The AVAX observation of the specification (LONG, entry 20, tp 22,
    sl 19) with the given confidence, as the parser returns it. *)
Definition avax_1h (conf : option Q) : Observation :=
  {| sd_ticker := "AVAX"; sd_timeframe := "1h"; sd_signal_type := "LONG";
     sd_entry_price := 20; sd_take_profit := Some 22%Q;
     sd_stop_loss := Some 19%Q; sd_confidence := conf;
     sd_risk_reward := None; sd_current_price := 20;
     sd_status := "new"; sd_created_at := 0; sd_signal_category := None;
     sd_correction := None; sd_warnings := None |}.

(** ** Vocabulary of the validation pass *)

(** What [validate_active_signals] does to one row of the store. *)
Definition validate_row (current_prices : list (string * Q)) (row : Signal) : Signal :=
  if ActiveSignals.is_active row then
    match ActiveSignals.price_for current_prices row with
    | Some p => SignalValidator.validate_signal row p
    | None => row
    end
  else row.

(** The rows whose status was not [k] before and is [k] after. *)
Definition moved_to (k : string) (before after : list Signal) : nat :=
  length (List.filter (fun ba => negb ((fst ba).(status) =? k) && ((snd ba).(status) =? k))
            (combine before after)).

(** The two rows agree on every column but [status] and [current_price]. *)
Definition same_but_status_and_price (a b : Signal) : Prop :=
  same_contract a b
  /\ a.(id) = b.(id)
  /\ a.(ticker) = b.(ticker)
  /\ a.(timeframe) = b.(timeframe)
  /\ a.(confidence) = b.(confidence)
  /\ a.(risk_reward) = b.(risk_reward)
  /\ a.(is_main_signal) = b.(is_main_signal)
  /\ a.(correction_type) = b.(correction_type)
  /\ a.(correction_entry) = b.(correction_entry)
  /\ a.(correction_tp) = b.(correction_tp)
  /\ a.(correction_sl) = b.(correction_sl)
  /\ a.(correction_confidence) = b.(correction_confidence)
  /\ a.(created_at) = b.(created_at).

(** A store with one signal of each kind: new, active, resolved. *)
Definition three_signals : Session :=
  {| signals := [long_100 "new"; long_100 "active"; long_100 "tp_hit"];
     error_logs := [] |}.

(** ** Vocabulary of the parser, continued *)

(** The value a raw item holds under a key, when the key is present and
    its value is not [None]. *)
Definition held (data : list (string * PyVal)) (key : string) : option PyVal :=
  match SignalDataParser.dict_get data key with
  | Some v => if SignalDataParser.is_none v then None else Some v
  | None => None
  end.

(** An optional number as the parser stores it: absent, or not zero. *)
Definition absent_or_nonzero (x : option Q) : Prop :=
  match x with
  | None => True
  | Some q => ~ (q == 0)%Q
  end.

(** The keys [_parse_single_signal] reads the current price from. *)
Definition current_price_keys : list string :=
  ["current_price"; "price"; "current"; "last_price"].

(** A 15m item of the API: a main and a correction signal under one
    current price. *)
Definition nested_item : list (string * PyVal) :=
  [("timeframe", PStr "15m"); ("current_price", PFloat 101);
   ("main_signal", PDict [("type", PStr "buy"); ("entry", PInt 100);
                          ("current_price", PInt 7)]);
   ("correction_signal", PDict [("type", PStr " Sell "); ("entry", PInt 105)])].

(** ** Vocabulary of the batch *)

(** The tickers of a batch that come with at least one observation. *)
Definition tickers_with_signals (signals_data : list (string * list Observation))
    : nat :=
  length (List.filter (fun item => match snd item with [] => false | _ => true end)
            signals_data).

(** The two rows are of the same (ticker, timeframe). *)
Definition same_key (a b : Signal) : Prop :=
  a.(ticker) = b.(ticker) /\ a.(timeframe) = b.(timeframe).

(** A batch in which BTC 1h comes twice, as a main and as a correction
    observation, and ETH 1h once. *)
Definition repeated_key_batch : list (string * list Observation) :=
  [("BTC", [btc_1h 50000; set_signal_category (btc_1h 50500) "correction"]);
   ("ETH", [avax_1h (Some 70%Q)]);
   ("SOL", [])].

(** The rows that were there keep their place and their columns outside
    the merge, and the ErrorLog keeps its rows. *)
Definition kept (before after : Session) : Prop :=
  (forall j r, before.(signals) !! j = Some r ->
     exists r', after.(signals) !! j = Some r' /\ same_outside_merge r r')
  /\ exists added, after.(error_logs) = before.(error_logs) ++ added.

(** The rows from position [n] on were created at [now], are new, and no
    two of them are of the same (ticker, timeframe). *)
Definition fresh_rows (n : nat) (now : Z) (session : Session) : Prop :=
  (forall i r, n <= i -> session.(signals) !! i = Some r ->
     r.(created_at) = now /\ r.(status) = "new")
  /\ forall i j ri rj, n <= i -> i < j ->
       session.(signals) !! i = Some ri -> session.(signals) !! j = Some rj ->
       ~ same_key ri rj.

(** ** Vocabulary of the scheduler, continued *)

(** The thread is inside the body of [_execute_signal_processing]. *)
Definition in_body (t : SignalScheduler.Thread) : bool :=
  match t with
  | SignalScheduler.Running _ => true
  | _ => false
  end.

(** The job threads that have begun a run and not ended it. *)
Definition runs_in_flight (self : SignalScheduler.Scheduler) : nat :=
  length (List.filter in_body self.(SignalScheduler.threads)).

(** What the run ledger keeps in every scheduler the events produce. *)
Definition ledger_balance (self : SignalScheduler.Scheduler) : Prop :=
  self.(SignalScheduler.total_runs)
  = self.(SignalScheduler.successful_runs) + self.(SignalScheduler.failed_runs)
    + runs_in_flight self
  /\ (self.(SignalScheduler.last_run_result) = None
      <-> self.(SignalScheduler.successful_runs)
          + self.(SignalScheduler.failed_runs) = 0)
  /\ (self.(SignalScheduler.last_run_time) = None
      <-> self.(SignalScheduler.total_runs) = 0).

(** A job thread that ends 25 seconds after [stop] was called. *)
Definition ends_after_25 : nat -> bool := fun t => (t <? 25)%nat.

(** ** Vocabulary of the API client *)

(** The seconds [get_multi_signal] sleeps after a pass before it tries
    again, when the pass ends in a way that is tried again. *)
Definition pause_after (response_truthy : SignalAPIClient.Response -> bool)
    (outcome : SignalAPIClient.Attempt) : option nat :=
  match outcome with
  | SignalAPIClient.Timeout => Some 1
  | SignalAPIClient.ConnectionError => Some 2
  | SignalAPIClient.HTTPError response =>
      if SignalAPIClient.client_error response_truthy response then None
      else Some 3
  | _ => None
  end.

(** The pauses after the first [k] passes. *)
Fixpoint pauses (response_truthy : SignalAPIClient.Response -> bool)
    (request : nat -> SignalAPIClient.Attempt) (k : nat) : nat :=
  match k with
  | 0 => 0
  | S k' =>
      pauses response_truthy request k'
      + default 0 (pause_after response_truthy (request k'))
  end.

(** A server that times out once and then answers with an empty list. *)
Definition one_timeout (attempt : nat) : SignalAPIClient.Attempt :=
  match attempt with
  | 0 => SignalAPIClient.Timeout
  | _ => SignalAPIClient.Data (PList [])
  end.

(** ** Vocabulary of the processing cycle *)

(** The row carries the ticker of [tk] and a price that is not zero. *)
Definition priced_for (tk : string) (sd : Observation) : Prop :=
  sd.(sd_ticker) = tk /\ ~ (sd.(sd_current_price) == 0)%Q.

(** Every row from position [n] on was created at [now] for a ticker of
    [processed_signals] and has been checked against the current price of
    the first signal of that ticker: it is in ['entry_hit'], with that
    price stored, when its entry condition holds at that price, and in
    ['new'] otherwise. *)
Definition checked_at_first_price
    (processed_signals : list (string * list Observation)) (now : Z) (n : nat)
    (out : Session) : Prop :=
  forall i row, n <= i -> out.(signals) !! i = Some row ->
    exists first rest,
      In (row.(ticker), first :: rest) processed_signals
      /\ row.(created_at) = now
      /\ ((row.(status) = "entry_hit"
           /\ entry_condition row first.(sd_current_price)
           /\ row.(current_price) = Some first.(sd_current_price))
          \/ (row.(status) = "new"
              /\ ~ entry_condition row first.(sd_current_price))).

(** The data of two tickers: BTC with a 1h LONG, entry 50000, at the price
    49000 and a 4h LONG, entry 49200, at the price 49500; ETH with a SHORT,
    entry 3000, at the price 2900. *)
Definition two_tickers : list (string * list (string * list (string * PyVal))) :=
  [("BTC", [("1h", raw_item "LONG" 50000 52000 48000 80
                   ++ [("current_price", PFloat 49000)]);
            ("4h", raw_item "LONG" 49200 52000 47000 80
                   ++ [("current_price", PFloat 49500)])]);
   ("ETH", [("1h", raw_item "SHORT" 3000 2800 3100 70
                   ++ [("current_price", PFloat 2900)])])].

(* ---------------------------------------------------------------------- *)
(** ** The execution state machine *)

Section StateMachine.

Import SignalValidator.

Lemma truthy_Some (q : Q) : Py.truthy (Some q) = true <-> ~ (q == 0)%Q.
Proof.
    unfold Py.truthy. rewrite negb_true_iff.
    split.
    - intros Hb Hq. apply Qeq_bool_iff in Hq. congruence.
    - intros Hq. destruct (Qeq_bool q 0) eqn:E; [|reflexivity].
      apply Qeq_bool_iff in E. contradiction.
Qed.

Lemma truthy_unset (x : option Q) : Py.truthy x = false <-> unset x.
Proof.
    destruct x as [q|]; simpl; [|tauto].
    rewrite negb_false_iff. apply Qeq_bool_iff.
Qed.

Lemma stop_loss_execution_spec (t : string) (p sl : Q) :
    _check_stop_loss_execution t p sl = true
    <-> (t = "LONG" /\ (p <= sl)%Q) \/ (t = "SHORT" /\ (sl <= p)%Q).
Proof.
    unfold _check_stop_loss_execution.
    destruct (String.eqb_spec t "LONG") as [->|HL].
    - rewrite Qle_bool_iff. split; [tauto|]. intros [[_ H]|[H _]]; [exact H|discriminate].
    - destruct (String.eqb_spec t "SHORT") as [->|HS].
      + rewrite Qle_bool_iff. split; [tauto|]. intros [[H _]|[_ H]]; [discriminate|exact H].
      + split; [discriminate|]. intros [[H _]|[H _]]; contradiction.
Qed.

Lemma take_profit_execution_spec (t : string) (p tp : Q) :
    _check_take_profit_execution t p tp = true
    <-> (t = "LONG" /\ (tp <= p)%Q) \/ (t = "SHORT" /\ (p <= tp)%Q).
Proof.
    unfold _check_take_profit_execution.
    destruct (String.eqb_spec t "LONG") as [->|HL].
    - rewrite Qle_bool_iff. split; [tauto|]. intros [[_ H]|[H _]]; [exact H|discriminate].
    - destruct (String.eqb_spec t "SHORT") as [->|HS].
      + rewrite Qle_bool_iff. split; [tauto|]. intros [[H _]|[_ H]]; [discriminate|exact H].
      + split; [discriminate|]. intros [[H _]|[H _]]; contradiction.
Qed.

Lemma entry_execution_spec (t : string) (p e : Q) :
    _check_entry_execution t p e = true
    <-> (t = "LONG" /\ (p <= e)%Q) \/ (t = "SHORT" /\ (e <= p)%Q).
Proof.
    unfold _check_entry_execution.
    destruct (String.eqb_spec t "LONG") as [->|HL].
    - rewrite Qle_bool_iff. split; [tauto|]. intros [[_ H]|[H _]]; [exact H|discriminate].
    - destruct (String.eqb_spec t "SHORT") as [->|HS].
      + rewrite Qle_bool_iff. split; [tauto|]. intros [[H _]|[_ H]]; [discriminate|exact H].
      + split; [discriminate|]. intros [[H _]|[H _]]; contradiction.
Qed.

  (** What the validator computes for the stop and for the take. *)
Lemma in_position_unfold (s : Signal) (p : Q) :
    in_position s ->
    _check_signal_execution s p =
      if match s.(stop_loss) with
         | Some sl => Py.truthy (Some sl)
                      && _check_stop_loss_execution (Py.upper s.(signal_type)) p sl
         | None => false
         end
      then "sl_hit"
      else if match s.(take_profit) with
              | Some tp => Py.truthy (Some tp)
                           && _check_take_profit_execution (Py.upper s.(signal_type)) p tp
              | None => false
              end
           then "tp_hit" else "active".
Proof.
    intros Hpos. unfold _check_signal_execution, float_if_set.
    assert (Hnew : (s.(status) =? "new") = false)
      by (destruct Hpos as [-> | ->]; reflexivity).
    assert (Hin : (s.(status) =? "entry_hit") || (s.(status) =? "active") = true)
      by (destruct Hpos as [-> | ->]; reflexivity).
    rewrite Hnew, Hin.
    destruct s.(stop_loss) as [sl|]; destruct s.(take_profit) as [tp|]; cbn [andb];
      repeat match goal with
             | |- context [Py.truthy (Some ?q)] =>
                 destruct (Py.truthy (Some q)) eqn:?; cbn [andb]
             end; try reflexivity; try congruence.
Qed.

(** C1, as amended. For a signal in status ['entry_hit'] or ['active']: when
    the stop-loss condition holds on a stop-loss that is stored and not
    zero, the result is ['sl_hit'], whether or not the take-profit condition
    holds too; when neither condition holds the result is ['active']; a
    stop-loss (take-profit) that is missing or stored as zero never yields
    ['sl_hit'] (['tp_hit']). *)
Theorem C1_stop_loss_priority (s : Signal) (p : Q) :
  in_position s ->
  (stop_condition s p -> ~ unset s.(stop_loss) ->
   _check_signal_execution s p = "sl_hit")
  /\ (~ stop_condition s p -> ~ take_condition s p ->
      _check_signal_execution s p = "active")
  /\ (unset s.(stop_loss) -> _check_signal_execution s p <> "sl_hit")
  /\ (unset s.(take_profit) -> _check_signal_execution s p <> "tp_hit").
Proof.
  intros Hpos. rewrite (in_position_unfold s p Hpos).
  unfold stop_condition, take_condition, is_long, is_short.
  repeat split.
  - intros (sl & Hsl & Hdir) Hset. rewrite Hsl in Hset |- *. simpl in Hset.
    apply truthy_Some in Hset. rewrite Hset. cbn [andb].
    apply stop_loss_execution_spec in Hdir. rewrite Hdir. reflexivity.
  - intros Hstop Htake.
    destruct s.(stop_loss) as [sl|] eqn:Esl.
    + destruct (_check_stop_loss_execution (Py.upper s.(signal_type)) p sl) eqn:E.
      * exfalso. apply Hstop. exists sl. split; [reflexivity|].
        apply stop_loss_execution_spec. exact E.
      * rewrite andb_false_r.
        destruct s.(take_profit) as [tp|] eqn:Etp; [|reflexivity].
        destruct (_check_take_profit_execution (Py.upper s.(signal_type)) p tp) eqn:E'.
        -- exfalso. apply Htake. exists tp. split; [reflexivity|].
           apply take_profit_execution_spec. exact E'.
        -- rewrite andb_false_r. reflexivity.
    + destruct s.(take_profit) as [tp|] eqn:Etp; [|reflexivity].
      destruct (_check_take_profit_execution (Py.upper s.(signal_type)) p tp) eqn:E'.
      * exfalso. apply Htake. exists tp. split; [reflexivity|].
        apply take_profit_execution_spec. exact E'.
      * rewrite andb_false_r. reflexivity.
  - intros Hun. apply truthy_unset in Hun.
    destruct s.(stop_loss) as [sl|]; [rewrite Hun; cbn [andb]|];
      repeat match goal with |- context [if ?b then _ else _] => destruct b end;
      discriminate.
  - intros Hun. apply truthy_unset in Hun.
    destruct s.(take_profit) as [tp|]; [rewrite Hun; cbn [andb]|];
      repeat match goal with |- context [if ?b then _ else _] => destruct b end;
      discriminate.
Qed.

(** C1 as stated fails: a SHORT signal in status ['active'] with take-profit
    100 and a stop-loss stored as 0, at price 50. Both conditions of the
    claim hold (50 >= 0 and 50 <= 100), the result is ['tp_hit']. *)
Lemma C1_zero_stop_counterexample :
  in_position short_zero_stop
  /\ stop_condition short_zero_stop 50
  /\ take_condition short_zero_stop 50
  /\ _check_signal_execution short_zero_stop 50 = "tp_hit"
  /\ _check_signal_execution short_zero_stop 50 <> "sl_hit".
Proof.
  repeat split.
  - right. reflexivity.
  - exists 0%Q. split; [reflexivity|]. right. split; [reflexivity|]. discriminate.
  - exists 100%Q. split; [reflexivity|]. right. split; [reflexivity|]. discriminate.
  - discriminate.
Qed.

(** The inverted levels of the specification ([tp=95, sl=105], LONG) at
    price 100: both conditions hold and the stop wins. *)
Lemma C1_stop_loss_priority_witness :
  in_position long_inverted
  /\ stop_condition long_inverted 100
  /\ take_condition long_inverted 100
  /\ _check_signal_execution long_inverted 100 = "sl_hit".
Proof.
  assert (Hpos : in_position long_inverted) by (right; reflexivity).
  assert (Hstop : stop_condition long_inverted 100).
  { exists 105%Q. split; [reflexivity|]. left. split; [reflexivity|]. discriminate. }
  assert (Htake : take_condition long_inverted 100).
  { exists 95%Q. split; [reflexivity|]. left. split; [reflexivity|]. discriminate. }
  split; [exact Hpos|]. split; [exact Hstop|]. split; [exact Htake|].
  apply (C1_stop_loss_priority long_inverted 100 Hpos); [exact Hstop|].
  simpl. discriminate.
Defined.

(** C2. For a signal in status ['new'] the result is ['entry_hit'] exactly
    when the entry condition holds (LONG: price <= entry; SHORT: price >=
    entry), in particular at the entry price itself, and ['new'] otherwise. *)
Theorem C2_entry_fill (s : Signal) (p : Q) :
  s.(status) = "new" ->
  (is_long s -> (_check_signal_execution s p = "entry_hit" <-> (p <= s.(entry_price))%Q))
  /\ (is_short s ->
      (_check_signal_execution s p = "entry_hit" <-> (s.(entry_price) <= p)%Q))
  /\ (_check_signal_execution s p = "entry_hit" <-> entry_condition s p)
  /\ (~ entry_condition s p -> _check_signal_execution s p = "new")
  /\ (is_long s \/ is_short s ->
      _check_signal_execution s s.(entry_price) = "entry_hit").
Proof.
  intros Hnew.
  assert (Hres : forall q, _check_signal_execution s q =
            if _check_entry_execution (Py.upper s.(signal_type)) q s.(entry_price)
            then "entry_hit" else "new").
  { intros q. unfold _check_signal_execution. rewrite Hnew. reflexivity. }
  assert (Hiff : forall q, _check_signal_execution s q = "entry_hit"
                           <-> entry_condition s q).
  { intros q. rewrite Hres. unfold entry_condition, is_long, is_short.
    rewrite <- entry_execution_spec.
    destruct (_check_entry_execution _ q _); split; congruence. }
  split; [|split; [|split; [|split]]].
  - intros HL. rewrite Hiff. unfold entry_condition, is_long, is_short in *.
    split; [|tauto]. intros [[_ H]|[H' _]]; [exact H|congruence].
  - intros HS. rewrite Hiff. unfold entry_condition, is_long, is_short in *.
    split; [|tauto]. intros [[H' _]|[_ H]]; [congruence|exact H].
  - apply Hiff.
  - intros Hn. rewrite Hres.
    destruct (_check_entry_execution _ p _) eqn:E; [|reflexivity].
    exfalso. apply Hn. apply Hiff. rewrite Hres, E. reflexivity.
  - intros Hdir. apply Hiff. unfold entry_condition.
    destruct Hdir; [left|right]; (split; [assumption|apply Qle_refl]).
Qed.

(** A LONG signal with entry 100 in status ['new'] fills at 100 and at 99,
    not at 101. *)
Lemma C2_entry_fill_witness :
  _check_signal_execution (long_100 "new") 100 = "entry_hit"
  /\ _check_signal_execution (long_100 "new") 99 = "entry_hit"
  /\ _check_signal_execution (long_100 "new") 101 = "new".
Proof.
  destruct (C2_entry_fill (long_100 "new") 99 eq_refl) as (HL & _ & _ & _ & Hat).
  destruct (C2_entry_fill (long_100 "new") 101 eq_refl) as (_ & _ & _ & Hno & _).
  split; [|split].
  - apply Hat. left. reflexivity.
  - apply HL; [reflexivity|]. discriminate.
  - apply Hno. intros [[_ H]|[H _]]; [|discriminate].
    apply H. reflexivity.
Defined.

Lemma from_new (s : Signal) (p : Q) :
  s.(status) = "new" ->
  _check_signal_execution s p = "new" \/ _check_signal_execution s p = "entry_hit".
Proof.
  intros Hnew. unfold _check_signal_execution. rewrite Hnew. simpl.
  destruct (_check_entry_execution _ _ _); auto.
Qed.

Lemma from_position (s : Signal) (p : Q) :
  in_position s ->
  _check_signal_execution s p = "active"
  \/ _check_signal_execution s p = "tp_hit"
  \/ _check_signal_execution s p = "sl_hit".
Proof.
  intros Hpos. rewrite (in_position_unfold s p Hpos).
  repeat match goal with |- context [if ?b then _ else _] => destruct b end; auto.
Qed.

Lemma from_other (s : Signal) (p : Q) :
  s.(status) <> "new" -> ~ in_position s ->
  _check_signal_execution s p = s.(status).
Proof.
  intros Hn Hp. unfold _check_signal_execution, in_position in *.
  destruct (String.eqb_spec s.(status) "new"); [contradiction|].
  destruct (String.eqb_spec s.(status) "entry_hit"); [tauto|].
  destruct (String.eqb_spec s.(status) "active"); [tauto|].
  reflexivity.
Qed.

Lemma status_rank_forward (s : Signal) (p : Q) :
  status_rank s.(status) <= status_rank (_check_signal_execution s p).
Proof.
  destruct (String.eqb_spec s.(status) "new") as [Hnew|Hnew].
  - rewrite Hnew at 1. apply Nat.le_0_l.
  - destruct (String.eqb_spec s.(status) "entry_hit") as [He|He].
    + destruct (from_position s p (or_introl He)) as [-> | [-> | ->]];
        rewrite He; unfold status_rank; simpl; lia.
    + destruct (String.eqb_spec s.(status) "active") as [Ha|Ha].
      * destruct (from_position s p (or_intror Ha)) as [-> | [-> | ->]];
          rewrite Ha; unfold status_rank; simpl; lia.
      * rewrite from_other; [lia|assumption|]. intros [?|?]; contradiction.
Qed.

(** C3. The status never moves backward: from ['new'] the result is
    ['new'] or ['entry_hit']; from ['entry_hit'] or ['active'] it is
    ['active'], ['tp_hit'] or ['sl_hit']; every other status is returned
    unchanged; hence the rank of the status never decreases. *)
Theorem C3_status_forward (s : Signal) (p : Q) :
  (s.(status) = "new" ->
   _check_signal_execution s p = "new" \/ _check_signal_execution s p = "entry_hit")
  /\ (in_position s ->
      _check_signal_execution s p = "active"
      \/ _check_signal_execution s p = "tp_hit"
      \/ _check_signal_execution s p = "sl_hit")
  /\ (s.(status) <> "new" -> ~ in_position s ->
      _check_signal_execution s p = s.(status))
  /\ status_rank s.(status) <= status_rank (_check_signal_execution s p).
Proof.
  split; [apply from_new|]. split; [apply from_position|].
  split; [apply from_other|apply status_rank_forward].
Qed.

(** Along any sequence of prices the status a signal is given by
    [validate_active_signals] never moves backward. *)
Corollary status_forward_along_prices (prices : list Q) (s : Signal) :
  status_rank s.(status) <= status_rank (fold_left validate_signal prices s).(status).
Proof.
  revert s. induction prices as [|p prices IH]; intros s; simpl; [lia|].
  etransitivity; [|apply IH].
  unfold validate_signal.
  destruct (_check_signal_execution s p =? s.(status)) eqn:E; simpl; [lia|].
  apply status_rank_forward.
Qed.

(** On the LONG signal [entry=100, tp=110, sl=90]: ['sl_hit'] stays
    ['sl_hit'] at price 105, and ['new'] does not leave [new, entry_hit]. *)
Lemma C3_status_forward_witness :
  _check_signal_execution (long_100 "sl_hit") 105 = "sl_hit"
  /\ (_check_signal_execution (long_100 "new") 105 = "new"
      \/ _check_signal_execution (long_100 "new") 105 = "entry_hit").
Proof.
  destruct (C3_status_forward (long_100 "sl_hit") 105) as (_ & _ & Hfix & _).
  destruct (C3_status_forward (long_100 "new") 105) as (Hnew & _).
  split.
  - apply Hfix; [discriminate|]. intros [H|H]; discriminate.
  - apply Hnew. reflexivity.
Defined.

End StateMachine.

(* ---------------------------------------------------------------------- *)
(** ** The confidence annotator *)

Section Annotator.

Import ConfidenceAnalyzer.

Variable format_float : Q -> string.

Lemma Qlt_bool_iff (a b : Q) : Py.Qlt_bool a b = true <-> (a < b)%Q.
Proof.
  unfold Py.Qlt_bool. rewrite negb_true_iff. split.
  - intros Hb. apply Qnot_le_lt. intros Hle.
    apply Qle_bool_iff in Hle. congruence.
  - intros Hlt. destruct (Qle_bool b a) eqn:E; [|reflexivity].
    apply Qle_bool_iff in E. exfalso. exact (Qlt_not_le _ _ Hlt E).
Qed.

(** The types of the warnings built for a known confidence. *)
Lemma confidence_warning_types (sd : Observation) (c : Q) :
  sd.(sd_confidence) = Some c ->
  List.map w_type (confidence_warnings format_float sd) =
    ((if Qle_bool 90 c then ["high_confidence"]
      else if Py.Qlt_bool c 50 then ["low_confidence"] else [])
     ++ (if Py.Qlt_bool 95 c then ["potential_trend_conflict"] else []))%list.
Proof.
  intros Hc. unfold confidence_warnings, _check_trend_conflict. rewrite Hc.
  unfold HIGH_CONFIDENCE_THRESHOLD, LOW_CONFIDENCE_THRESHOLD.
  destruct (Qle_bool 90 c); destruct (Py.Qlt_bool c 50);
    destruct (Py.Qlt_bool 95 c); reflexivity.
Qed.

Lemma has_warning_types (ws : list Warning) (t : string) :
  has_warning ws t <-> In t (List.map w_type ws).
Proof.
  unfold has_warning. rewrite in_map_iff. split.
  - intros (w & Hin & Ht). exists w. split; assumption.
  - intros (w & Ht & Hin). exists w. split; assumption.
Qed.

Lemma analyze_length (signals : list Observation) :
  length (analyze_confidence_warnings format_float signals) = length signals.
Proof.
  induction signals as [|sd rest IH]; simpl; [reflexivity|].
  f_equal. exact IH.
Qed.

Lemma analyze_lookup (signals : list Observation) (i : nat) :
  analyze_confidence_warnings format_float signals !! i =
    (fun sd => set_warnings sd (confidence_warnings format_float sd))
      <$> signals !! i.
Proof.
  revert i. induction signals as [|sd rest IH]; intros [|i]; simpl; try reflexivity.
  apply IH.
Qed.

(** C9. The annotator returns a list of the same length in which the
    element at every position is the input element with a ['warnings'] list
    attached and every other key unchanged. For a known confidence [c] the
    list holds ['high_confidence'] iff [c >= 90], ['low_confidence'] iff
    [c < 50] and ['potential_trend_conflict'] iff [c > 95]; for an unknown
    confidence it is empty. The annotator is a total function of its
    input. *)
Theorem C9_confidence_warnings (signals : list Observation) :
  length (analyze_confidence_warnings format_float signals) = length signals
  /\ forall (i : nat) (sd : Observation),
      signals !! i = Some sd ->
      exists (out : Observation) (ws : list Warning),
        analyze_confidence_warnings format_float signals !! i = Some out
        /\ out.(sd_warnings) = Some ws
        /\ same_but_warnings sd out
        /\ (forall c, sd.(sd_confidence) = Some c ->
              (has_warning ws "high_confidence" <-> (90 <= c)%Q)
              /\ (has_warning ws "low_confidence" <-> (c < 50)%Q)
              /\ (has_warning ws "potential_trend_conflict" <-> (95 < c)%Q))
        /\ (sd.(sd_confidence) = None -> ws = []).
Proof.
  split; [apply analyze_length|].
  intros i sd Hi.
  exists (set_warnings sd (confidence_warnings format_float sd)),
         (confidence_warnings format_float sd).
  split; [rewrite analyze_lookup, Hi; reflexivity|].
  split; [reflexivity|].
  split; [unfold same_but_warnings; simpl; tauto|].
  split.
  - intros c Hc. rewrite !has_warning_types, (confidence_warning_types sd c Hc).
    rewrite <- (Qle_bool_iff 90 c), <- (Qlt_bool_iff c 50), <- (Qlt_bool_iff 95 c).
    assert (Hexcl : Qle_bool 90 c = true -> Py.Qlt_bool c 50 = false).
    { intros H90. destruct (Py.Qlt_bool c 50) eqn:E; [|reflexivity].
      apply Qle_bool_iff in H90. apply Qlt_bool_iff in E.
      exfalso. assert (H : (90 < 50)%Q) by (eapply Qle_lt_trans; eassumption).
      discriminate H. }
    destruct (Qle_bool 90 c) eqn:E1; destruct (Py.Qlt_bool c 50) eqn:E2;
      destruct (Py.Qlt_bool 95 c) eqn:E3;
      try (specialize (Hexcl eq_refl); discriminate Hexcl);
      simpl; intuition congruence.
  - intros Hc. unfold confidence_warnings. rewrite Hc. reflexivity.
Qed.

End Annotator.

(** Confidence 96 brings ['high_confidence'] and
    ['potential_trend_conflict'], an unknown confidence brings nothing. *)
Lemma C9_confidence_warnings_witness :
  let out := ConfidenceAnalyzer.analyze_confidence_warnings blank_float
               [avax_1h (Some 96%Q); avax_1h None] in
  (exists o ws, out !! 0%nat = Some o /\ o.(sd_warnings) = Some ws
                /\ has_warning ws "high_confidence"
                /\ has_warning ws "potential_trend_conflict"
                /\ ~ has_warning ws "low_confidence")
  /\ (exists o, out !! 1%nat = Some o /\ o.(sd_warnings) = Some []).
Proof.
  destruct (C9_confidence_warnings blank_float [avax_1h (Some 96%Q); avax_1h None])
    as [_ H].
  split.
  - destruct (H 0%nat (avax_1h (Some 96%Q)) eq_refl)
      as (o & ws & Ho & Hws & _ & Hc & _).
    destruct (Hc 96%Q eq_refl) as (Hhigh & Hlow & Htrend).
    exists o, ws. split; [exact Ho|]. split; [exact Hws|].
    split; [apply Hhigh; discriminate|].
    split; [apply Htrend; reflexivity|].
    intros Hl. apply Hlow in Hl. discriminate Hl.
  - destruct (H 1%nat (avax_1h None) eq_refl) as (o & ws & Ho & Hws & _ & _ & Hn).
    exists o. split; [exact Ho|]. rewrite Hws, (Hn eq_refl). reflexivity.
Defined.

(* ---------------------------------------------------------------------- *)
(** ** The upsert engine *)

Section Upsert.

Import SignalProcessor.

Variable query_error : Observation -> option string.

Lemma str_in_open (st : string) :
  Py.str_in st ["new"; "entry_hit"; "active"] = true
  <-> st = "new" \/ st = "entry_hit" \/ st = "active".
Proof.
  unfold Py.str_in. simpl.
  destruct (String.eqb_spec st "new"); [tauto|].
  destruct (String.eqb_spec st "entry_hit"); [tauto|].
  destruct (String.eqb_spec st "active"); [tauto|].
  simpl. split; [discriminate|tauto].
Qed.

Lemma matches_query_spec (tk tf : string) (thr : Z) (row : Signal) :
  matches_query tk tf thr row = true
  <-> row.(ticker) = tk /\ row.(timeframe) = tf /\ (thr <= row.(created_at))%Z
      /\ (row.(status) = "new" \/ row.(status) = "entry_hit"
          \/ row.(status) = "active").
Proof.
  unfold matches_query.
  rewrite !andb_true_iff, str_in_open, Z.leb_le, !String.eqb_eq. tauto.
Qed.


Lemma find_existing_Some (session : Session) (now : Z) (sd : Observation)
    (i : nat) (existing : Signal) :
  _find_existing_signal session now sd = Some (i, existing) ->
  session.(signals) !! i = Some existing
  /\ matches_query sd.(sd_ticker) sd.(sd_timeframe) (now - FRESHNESS) existing = true.
Proof.
  unfold _find_existing_signal. intros H.
  apply list_find_Some in H. destruct H as (Hi & Hm & _).
  split; [exact Hi|]. apply Is_true_true. exact Hm.
Qed.

Lemma find_existing_None (session : Session) (now : Z) (sd : Observation)
    (row : Signal) :
  _find_existing_signal session now sd = None ->
  In row session.(signals) ->
  matches_query sd.(sd_ticker) sd.(sd_timeframe) (now - FRESHNESS) row = false.
Proof.
  unfold _find_existing_signal. intros H Hin.
  apply list_find_None in H. rewrite List.Forall_forall in H.
  specialize (H row Hin). simpl in H.
  destruct (matches_query _ _ _ row); [|reflexivity].
  exfalso. apply H. exact I.
Qed.


End Upsert.


(* ---------------------------------------------------------------------- *)
(** ** The merge of an observation into a matched row *)

Section Merge.

Import SignalProcessor.

Variable query_error : Observation -> option string.



(** The merge leaves every column outside its scope as it was. *)
Lemma update_frame (existing : Signal) (sd : Observation) :
  same_outside_merge existing (fst (_update_existing_signal existing sd)).
Proof.
  unfold same_outside_merge, same_contract. simpl. tauto.
Qed.



End Merge.



(* ---------------------------------------------------------------------- *)
(** ** Raw items: what the parser lets through *)

Section Pipeline.

Import SignalDataParser.

Variable float_of_str : string -> option Q.
Variable format_float : Q -> string.
Variable query_error : Observation -> option string.

(** The normalised direction is always one of the three words, so the
    direction test of [_parse_single_signal] rejects nothing. *)
Lemma normalize_signal_type_range (v : PyVal) :
  _normalize_signal_type v = "LONG" \/ _normalize_signal_type v = "SHORT"
  \/ _normalize_signal_type v = "HOLD".
Proof.
  unfold _normalize_signal_type.
  destruct (falsy v); [tauto|].
  destruct v; try tauto;
    repeat match goal with |- context [if ?b then _ else _] => destruct b end;
    tauto.
Qed.

Lemma normalize_signal_type_known (v : PyVal) :
  Py.str_in (_normalize_signal_type v) ["LONG"; "SHORT"; "HOLD"] = true.
Proof.
  destruct (normalize_signal_type_range v) as [-> | [-> | ->]]; reflexivity.
Qed.










End Pipeline.



(** C6 fails on the code: a raw HOLD item that carries an entry price is
    parsed, saved as a row whose [signal_type] is ['HOLD'], and counted as
    created. *)
Lemma C6_hold_observation_is_persisted :
  let out := SignalManager.parse_and_save no_text_number blank_float no_query_error
               empty_session 0 [("SOL", [("1h", hold_item)])] in
  List.map signal_type (fst out).(signals) = ["HOLD"]
  /\ snd out = {| total_signals := 1; saved_signals := 1; updated_signals := 0;
                  errors := 0; tickers_processed := 1 |}.
Proof. vm_compute. split; reflexivity. Qed.

(* ---------------------------------------------------------------------- *)
(** ** The scheduler and its run ledger *)

Section Ledger.

Import SignalScheduler.

Lemma job_alive_lookup (self : Scheduler) (j : nat) (t : Thread) :
  self.(job_thread) = Some j -> self.(threads) !! j = Some t ->
  job_alive self = is_alive t.
Proof.
  intros Hj Ht. unfold job_alive. rewrite Hj, Ht. reflexivity.
Qed.

Lemma invariant_init : ledger_invariant init.
Proof.
  split; [reflexivity|]. intros j t H. discriminate H.
Qed.

Lemma invariant_step (self : Scheduler) (ev : Event) :
  ledger_invariant self -> ledger_invariant (step self ev).
Proof.
  intros [Hruns Halive]. destruct ev as [|i job_start|i now outcome|outcome]; simpl.
  - unfold _run_signal_processing_job.
    destruct (job_alive self) eqn:Hja; [split; assumption|].
    split; [exact Hruns|]. cbn [threads job_thread]. intros j t Hj Ht.
    apply lookup_app_Some in Hj. destruct Hj as [Hj | [Hle Hj]].
    + exfalso. pose proof (Halive j t Hj Ht) as Hjob.
      rewrite (job_alive_lookup self j t Hjob Hj), Ht in Hja. discriminate.
    + destruct (j - length self.(threads)) as [|k] eqn:Hk; [|discriminate Hj].
      apply lookup_lt_Some in Hj. f_equal. lia.
  - destruct (self.(threads) !! i) as [[| |]|] eqn:Hi; try (split; assumption).
    unfold _execute_signal_processing_begin.
    split; cbn [total_runs thread_cycles threads job_thread]; [congruence|].
    intros j t Hj Ht. destruct (decide (i = j)) as [->|Hne].
    + apply (Halive j Started Hi). reflexivity.
    + rewrite list_lookup_insert_ne in Hj by exact Hne. exact (Halive j t Hj Ht).
  - destruct (self.(threads) !! i) as [[| |]|] eqn:Hi; try (split; assumption).
    unfold _execute_signal_processing_end.
    split; cbn [total_runs thread_cycles threads job_thread]; [exact Hruns|].
    intros j t Hj Ht. destruct (decide (i = j)) as [->|Hne].
    + rewrite list_lookup_insert_eq in Hj by (eapply lookup_lt_Some; exact Hi).
      injection Hj as <-. discriminate Ht.
    + rewrite list_lookup_insert_ne in Hj by exact Hne. exact (Halive j t Hj Ht).
  - unfold run_manual. destruct (job_alive self); (split; assumption).
Qed.

Lemma invariant_run (evs : list Event) (self : Scheduler) :
  ledger_invariant self -> ledger_invariant (run self evs).
Proof.
  revert self. induction evs as [|ev evs IH]; intros self Hinv; [exact Hinv|].
  apply IH. apply invariant_step. exact Hinv.
Qed.

(** Threads that are alive only at one position are at most one. *)
Lemma alive_at_most_one (l : list Thread) (k : option nat) :
  (forall j t, l !! j = Some t -> is_alive t = true -> k = Some j) ->
  length (List.filter is_alive l) <= 1.
Proof.
  revert k. induction l as [|x l IH]; intros k H; simpl; [lia|].
  destruct (is_alive x) eqn:Hx.
  - assert (Hk : k = Some 0%nat) by (apply (H 0%nat x); [reflexivity|exact Hx]).
    assert (Hnone : List.filter is_alive l = []).
    { clear IH. induction l as [|y l IHl]; [reflexivity|]. simpl.
      destruct (is_alive y) eqn:Hy.
      - exfalso. pose proof (H 1%nat y eq_refl Hy) as H1. congruence.
      - apply IHl. intros j t Hj Ht. destruct j as [|j].
        + apply (H 0%nat t Hj Ht).
        + exfalso. pose proof (H (S (S j)) t Hj Ht) as H2. congruence. }
    rewrite Hnone. simpl. lia.
  - apply (IH (pred <$> k)). intros j t Hj Ht.
    rewrite (H (S j) t Hj Ht). reflexivity.
Qed.

(** C8, as amended. While the job thread is alive the scheduled trigger
    changes nothing (no thread is started), and [run_manual] returns
    [success = False] with the error text without executing a cycle. In
    every scheduler the events produce, [total_runs] is the number of
    cycles executed by job threads (a cycle run by [run_manual] is not
    counted), and at most one thread is alive. *)
Theorem C8_concurrency_guard :
  (forall self, job_alive self = true -> _run_signal_processing_job self = self)
  /\ (forall self outcome, job_alive self = true ->
        run_manual self outcome
        = (self, {| m_success := false; m_results := None;
                    m_error := Some "Уже выполняется другая задача" |}))
  /\ (forall evs,
        (run init evs).(total_runs) = (run init evs).(thread_cycles)
        /\ alive_threads (run init evs) <= 1).
Proof.
  split; [|split].
  - intros self Ha. unfold _run_signal_processing_job. rewrite Ha. reflexivity.
  - intros self outcome Ha. unfold run_manual. rewrite Ha. reflexivity.
  - intros evs. destruct (invariant_run evs init invariant_init) as [Hruns Halive].
    split; [exact Hruns|].
    unfold alive_threads. eapply alive_at_most_one. exact Halive.
Qed.

(** C8 as stated fails: on a fresh scheduler [run_manual] executes a
    cycle, and [total_runs] stays at zero. *)
Lemma C8_manual_cycle_counterexample :
  executed_cycles (run init [Manual (Returned some_results)]) = 1
  /\ (run init [Manual (Returned some_results)]).(total_runs) = 0
  /\ snd (run_manual init (Returned some_results))
     = {| m_success := true; m_results := Some some_results; m_error := None |}.
Proof. repeat split. Qed.

(** The schedule fires twice and [run_manual] is called while the first
    thread is in its body: one thread, one run, no manual cycle. *)
Lemma C8_concurrency_guard_witness :
  let busy := run init [Trigger; ThreadBegin 0 100] in
  job_alive busy = true
  /\ _run_signal_processing_job busy = busy
  /\ fst (run_manual busy (Returned some_results)) = busy
  /\ (snd (run_manual busy (Returned some_results))).(m_success) = false
  /\ (run init [Trigger; ThreadBegin 0 100; Trigger]).(total_runs) = 1.
Proof.
  destruct C8_concurrency_guard as (Htrigger & Hmanual & Hruns).
  intros busy.
  assert (Ha : job_alive busy = true) by reflexivity.
  split; [exact Ha|]. split; [exact (Htrigger busy Ha)|].
  rewrite (Hmanual busy (Returned some_results) Ha).
  split; [reflexivity|]. split; [reflexivity|].
  rewrite (proj1 (Hruns [Trigger; ThreadBegin 0%nat 100%Z; Trigger])). reflexivity.
Defined.

(** The events do not read the count of manual cycles. *)
Lemma step_without_manual (a b : Scheduler) (ev : Event) :
  without_manual a = without_manual b ->
  without_manual (step a ev) = without_manual (step b ev).
Proof.
  intros H. destruct a as [r1 s1 j1 t1 l1 n1 o1 f1 th1 c1 m1 x1].
  destruct b as [r2 s2 j2 t2 l2 n2 o2 f2 th2 c2 m2 x2].
  unfold without_manual in H. cbn in H. injection H as -> -> -> -> -> -> -> -> -> -> ->.
  destruct ev as [|i job_start|i now outcome|outcome]; cbn [step].
  - unfold _run_signal_processing_job, job_alive. cbn [job_thread threads].
    destruct j2 as [k|]; [destruct (th2 !! k) as [t|]; [destruct (is_alive t)|]|];
      reflexivity.
  - cbn [threads]. destruct (th2 !! i) as [[| |]|]; reflexivity.
  - cbn [threads]. destruct (th2 !! i) as [[| |]|]; reflexivity.
  - unfold run_manual, job_alive. cbn [job_thread threads].
    destruct j2 as [k|]; [destruct (th2 !! k) as [t|]; [destruct (is_alive t)|]|];
      reflexivity.
Qed.

Lemma run_without_manual (evs : list Event) (a b : Scheduler) :
  without_manual a = without_manual b ->
  without_manual (run a evs) = without_manual (run b evs).
Proof.
  revert a b. induction evs as [|ev evs IH]; intros a b H; [exact H|].
  apply IH. apply step_without_manual. exact H.
Qed.

Lemma get_status_without_manual (self : Scheduler) :
  get_status (without_manual self) = get_status self.
Proof. reflexivity. Qed.

(** C10. [run_manual] leaves the run ledger as it was, whether it is
    rejected, its cycle returns or its cycle raises: [total_runs],
    [successful_runs], [failed_runs], [last_run_time] and [last_run_result]
    are unchanged, and so is what [get_status] returns, right after the
    call and after any further events: the snapshot is the one of the
    scheduler on which [run_manual] was not called. *)
Theorem C10_run_manual_keeps_ledger (self : Scheduler) (outcome : CycleOutcome) :
  let self' := fst (run_manual self outcome) in
  self'.(total_runs) = self.(total_runs)
  /\ self'.(successful_runs) = self.(successful_runs)
  /\ self'.(failed_runs) = self.(failed_runs)
  /\ self'.(last_run_time) = self.(last_run_time)
  /\ self'.(last_run_result) = self.(last_run_result)
  /\ get_status self' = get_status self
  /\ forall evs, get_status (run self' evs) = get_status (run self evs).
Proof.
  assert (Hsame : without_manual (fst (run_manual self outcome)) = without_manual self).
  { unfold run_manual. destruct (job_alive self); reflexivity. }
  cbv zeta.
  split; [|split; [|split; [|split; [|split; [|split]]]]];
    try (unfold run_manual; destruct (job_alive self); reflexivity).
  intros evs.
  rewrite <- (get_status_without_manual (run _ evs)),
          <- (get_status_without_manual (run self evs)).
  f_equal. apply run_without_manual. exact Hsame.
Qed.

End Ledger.

(* ---------------------------------------------------------------------- *)
(** ** The validation pass over the store *)

Section ValidationPass.

Import SignalValidator ActiveSignals.

Variable current_prices : list (string * Q).

Lemma combine_app_same_length {A B : Type} (a1 a2 : list A) (b1 b2 : list B) :
  length a1 = length b1 ->
  combine (a1 ++ a2) (b1 ++ b2) = combine a1 b1 ++ combine a2 b2.
Proof.
  revert b1. induction a1 as [|x a1 IH]; intros [|y b1] Hlen;
    try discriminate Hlen; [reflexivity|].
  cbn. f_equal. apply IH. injection Hlen as Hlen. exact Hlen.
Qed.

Lemma moved_to_app (k : string) (b1 a1 b2 a2 : list Signal) :
  length b1 = length a1 ->
  moved_to k (b1 ++ b2) (a1 ++ a2) = moved_to k b1 a1 + moved_to k b2 a2.
Proof.
  intros Hlen. unfold moved_to.
  rewrite combine_app_same_length by exact Hlen.
  rewrite List.filter_app, length_app. reflexivity.
Qed.

Lemma visit_row (done : list Signal) (results : ValidationResults) (r : Signal) :
  fst (visit current_prices (done, results) r)
  = done ++ [validate_row current_prices r].
Proof.
  unfold visit, validate_row, check_signal, validate_signal.
  destruct (is_active r); [|reflexivity].
  destruct (price_for current_prices r) as [p|]; [|reflexivity].
  destruct (negb (_check_signal_execution r p =? status r)); reflexivity.
Qed.

(** The loop visits the rows in order and gives each its new value. *)
Lemma visit_fold (rows done : list Signal) (results : ValidationResults) :
  fst (fold_left (visit current_prices) rows (done, results))
  = done ++ List.map (validate_row current_prices) rows.
Proof.
  revert done results. induction rows as [|r rows IH]; intros done results.
  - simpl. rewrite app_nil_r. reflexivity.
  - cbn [fold_left List.map].
    pose proof (visit_row done results r) as Hr.
    destruct (visit current_prices (done, results) r) as [done' results'].
    cbn [fst] in Hr. subst done'. rewrite IH, <- app_assoc. reflexivity.
Qed.

Lemma validate_signals (session : Session) :
  (fst (validate_active_signals session current_prices)).(signals)
  = List.map (validate_row current_prices) session.(signals)
  /\ (fst (validate_active_signals session current_prices)).(error_logs)
     = session.(error_logs).
Proof.
  unfold validate_active_signals.
  pose proof (visit_fold session.(signals) []
                {| checked_signals := 0; entry_hits := 0; take_profit_hits := 0;
                   stop_loss_hits := 0; still_active := 0; errors := 0 |}) as H.
  destruct (fold_left _ _ _) as [rows results]. cbn [fst] in H.
  cbn [fst signals error_logs]. split; [exact H|reflexivity].
Qed.

Lemma update_keeps (s : Signal) (st : string) (p : option Q) :
  same_but_status_and_price s (update_signal_status s st p).
Proof. unfold same_but_status_and_price, same_contract. simpl. tauto. Qed.

Lemma same_but_refl (s : Signal) : same_but_status_and_price s s.
Proof. unfold same_but_status_and_price, same_contract. tauto. Qed.

Lemma validate_row_keeps (r : Signal) :
  same_but_status_and_price r (validate_row current_prices r).
Proof.
  unfold validate_row, validate_signal.
  destruct (is_active r); [|apply same_but_refl].
  destruct (price_for current_prices r) as [p|]; [|apply same_but_refl].
  destruct (negb _); [apply update_keeps|apply same_but_refl].
Qed.

Lemma validate_row_rank (r : Signal) :
  status_rank r.(status) <= status_rank (validate_row current_prices r).(status).
Proof.
  unfold validate_row, validate_signal.
  destruct (is_active r); [|lia].
  destruct (price_for current_prices r) as [p|]; [|lia].
  destruct (negb _); [|lia]. cbn [update_signal_status status].
  apply status_rank_forward.
Qed.


(** A validation pass keeps the store in shape: as many rows, in the same
    order, each with the columns it had but [status] and [current_price];
    the status of no row moves backward; a row that is not active, and an
    active row for which no price is known, is left as it is; the ErrorLog
    is not written. *)
Theorem validation_pass_frame (session : Session) :
  let out := fst (validate_active_signals session current_prices) in
  length out.(signals) = length session.(signals)
  /\ out.(error_logs) = session.(error_logs)
  /\ forall j r, session.(signals) !! j = Some r ->
       exists r', out.(signals) !! j = Some r'
         /\ same_but_status_and_price r r'
         /\ status_rank r.(status) <= status_rank r'.(status)
         /\ (is_active r = false -> r' = r)
         /\ (price_for current_prices r = None -> r' = r).
Proof.
  destruct (validate_signals session) as [Hrows Hlogs].
  cbv zeta. rewrite Hrows, Hlogs.
  split; [apply length_map|]. split; [reflexivity|].
  intros j r Hj. exists (validate_row current_prices r).
  split.
  - change (List.map (validate_row current_prices) (signals session))
      with (validate_row current_prices <$> signals session).
    rewrite list_lookup_fmap, Hj. reflexivity.
  - split; [apply validate_row_keeps|]. split; [apply validate_row_rank|].
    split; intros H; unfold validate_row; rewrite H; [reflexivity|].
    destruct (is_active r); reflexivity.
Qed.

Lemma moved_to_one (k : string) (r r' : Signal) :
  moved_to k [r] [r']
  = if negb (r.(status) =? k) && (r'.(status) =? k) then 1 else 0.
Proof.
  unfold moved_to. cbn. destruct (negb _ && _); reflexivity.
Qed.

Lemma moved_to_cons (k : string) (r r' : Signal) (before after : list Signal) :
  moved_to k (r :: before) (r' :: after)
  = moved_to k [r] [r'] + moved_to k before after.
Proof.
  apply (moved_to_app k [r] [r'] before after). reflexivity.
Qed.

(** What one row adds to the counters. *)
Lemma visit_counts_row (done : list Signal) (results : ValidationResults)
    (r : Signal) :
  let out := snd (visit current_prices (done, results) r) in
  let n := if is_active r then 1 else 0 in
  let f := validate_row current_prices in
  out.(checked_signals) = results.(checked_signals) + n
  /\ out.(entry_hits) = results.(entry_hits) + moved_to "entry_hit" [r] [f r]
  /\ out.(take_profit_hits)
     = results.(take_profit_hits) + moved_to "tp_hit" [r] [f r]
  /\ out.(stop_loss_hits) = results.(stop_loss_hits) + moved_to "sl_hit" [r] [f r]
  /\ out.(entry_hits) + out.(take_profit_hits) + out.(stop_loss_hits)
     + out.(still_active)
     <= results.(entry_hits) + results.(take_profit_hits)
        + results.(stop_loss_hits) + results.(still_active) + n
  /\ out.(errors) = results.(errors).
Proof.
  cbv zeta. rewrite !moved_to_one.
  unfold visit, validate_row, check_signal, validate_signal.
  destruct (is_active r); [|cbn; rewrite !andb_negb_l; cbn; lia].
  destruct (price_for current_prices r) as [p|];
    [|cbn; rewrite !andb_negb_l; cbn; lia].
  destruct (String.eqb_spec (_check_signal_execution r p) (status r)) as [E|E];
    cbn [negb].
  - cbn. rewrite !andb_negb_l. cbn. lia.
  - cbn [snd checked_signals entry_hits take_profit_hits stop_loss_hits
         still_active errors update_signal_status status].
    remember (_check_signal_execution r p) as new eqn:Hnew. clear Hnew.
    destruct (String.eqb_spec new "entry_hit") as [->|H1].
    + assert (Hr : (status r =? "entry_hit") = false)
        by (apply String.eqb_neq; congruence).
      rewrite Hr. cbn. rewrite ?andb_false_r. cbn. lia.
    + destruct (String.eqb_spec new "tp_hit") as [->|H2].
      * assert (Hr : (status r =? "tp_hit") = false)
          by (apply String.eqb_neq; congruence).
        rewrite Hr. cbn. rewrite ?andb_false_r. cbn. lia.
      * destruct (String.eqb_spec new "sl_hit") as [->|H3].
        -- assert (Hr : (status r =? "sl_hit") = false)
             by (apply String.eqb_neq; congruence).
           rewrite Hr. cbn. rewrite ?andb_false_r. cbn. lia.
        -- rewrite !andb_false_r. cbn. lia.
Qed.

Lemma visit_counts (rows done : list Signal) (results : ValidationResults) :
  let out := snd (fold_left (visit current_prices) rows (done, results)) in
  let n := length (List.filter is_active rows) in
  let after := List.map (validate_row current_prices) rows in
  out.(checked_signals) = results.(checked_signals) + n
  /\ out.(entry_hits) = results.(entry_hits) + moved_to "entry_hit" rows after
  /\ out.(take_profit_hits) = results.(take_profit_hits) + moved_to "tp_hit" rows after
  /\ out.(stop_loss_hits) = results.(stop_loss_hits) + moved_to "sl_hit" rows after
  /\ out.(entry_hits) + out.(take_profit_hits) + out.(stop_loss_hits)
     + out.(still_active)
     <= results.(entry_hits) + results.(take_profit_hits)
        + results.(stop_loss_hits) + results.(still_active) + n
  /\ out.(errors) = results.(errors).
Proof.
  revert done results. induction rows as [|r rows IH]; intros done results.
  - cbn. unfold moved_to. cbn. lia.
  - cbn [fold_left List.map List.filter].
    rewrite (moved_to_cons "entry_hit"), (moved_to_cons "tp_hit"),
      (moved_to_cons "sl_hit").
    pose proof (visit_counts_row done results r) as Hr. cbv zeta in Hr.
    destruct (visit current_prices (done, results) r) as [done' results'].
    cbn [snd] in Hr. specialize (IH done' results'). cbv zeta in IH.
    destruct Hr as (H1 & H2 & H3 & H4 & H5 & H6).
    destruct IH as (I1 & I2 & I3 & I4 & I5 & I6).
    assert (Hn : length (if is_active r then r :: List.filter is_active rows
                         else List.filter is_active rows)
                 = (if is_active r then 1 else 0)
                   + length (List.filter is_active rows))
      by (destruct (is_active r); reflexivity).
    cbv zeta. rewrite Hn.
    repeat split; lia.
Qed.

(** The counters of a validation pass: [checked_signals] is the number of
    active rows; [entry_hits], [take_profit_hits] and [stop_loss_hits] are
    the numbers of rows whose status became ['entry_hit'], ['tp_hit'] and
    ['sl_hit'] in this pass; with [still_active] they add up to no more
    than [checked_signals] (a row that goes from ['entry_hit'] to
    ['active'], and a row without price, is counted in none). *)
Theorem validation_pass_counts (session : Session) :
  let out := validate_active_signals session current_prices in
  let before := session.(signals) in
  let after := (fst out).(signals) in
  (snd out).(checked_signals) = length (get_active_signals session)
  /\ (snd out).(entry_hits) = moved_to "entry_hit" before after
  /\ (snd out).(take_profit_hits) = moved_to "tp_hit" before after
  /\ (snd out).(stop_loss_hits) = moved_to "sl_hit" before after
  /\ (snd out).(entry_hits) + (snd out).(take_profit_hits)
     + (snd out).(stop_loss_hits) + (snd out).(still_active)
     <= (snd out).(checked_signals).
Proof.
  destruct (validate_signals session) as [Hrows _].
  cbv zeta. rewrite Hrows. unfold validate_active_signals, get_active_signals.
  pose proof (visit_counts session.(signals) []
                {| checked_signals := 0; entry_hits := 0; take_profit_hits := 0;
                   stop_loss_hits := 0; still_active := 0; errors := 0 |}) as H.
  destruct (fold_left _ _ _) as [rows results]. cbn [snd] in *.
  cbv zeta in H. cbn [checked_signals entry_hits take_profit_hits stop_loss_hits
                      still_active errors] in H.
  destruct H as (H1 & H2 & H3 & H4 & H5 & _).
  repeat split; lia.
Qed.







End ValidationPass.

(* ---------------------------------------------------------------------- *)
(** ** The parser: reading fields *)

Section Fields.

Import SignalDataParser.

Variable float_of_str : string -> option Q.

Lemma extract_field_skip (data : list (string * PyVal)) (k : string)
    (keys : list string) (default : PyVal) :
  held data k = None ->
  _extract_field data (k :: keys) default = _extract_field data keys default.
Proof.
  unfold held. cbn [_extract_field].
  destruct (dict_get data k) as [v|]; [|reflexivity].
  destruct (is_none v); [reflexivity|discriminate].
Qed.

(** [_extract_field] returns the value held under the first of the listed
    keys that holds one, and the default exactly when none of them does. *)
Theorem extract_field_first (data : list (string * PyVal))
    (possible_keys : list string) (default : PyVal) :
  (forall before key after v,
      possible_keys = before ++ key :: after ->
      (forall k, In k before -> held data k = None) ->
      held data key = Some v ->
      _extract_field data possible_keys default = v)
  /\ ((forall k, In k possible_keys -> held data k = None) ->
      _extract_field data possible_keys default = default)
  /\ (_extract_field data possible_keys default = default
      \/ exists key, In key possible_keys
           /\ held data key = Some (_extract_field data possible_keys default)).
Proof.
  split; [|split].
  - intros before. revert possible_keys.
    induction before as [|k before IH]; intros keys key after v -> Hbefore Hkey.
    + cbn [app _extract_field]. unfold held in Hkey.
      destruct (dict_get data key) as [w|]; [|discriminate].
      destruct (is_none w); [discriminate|]. congruence.
    + cbn [app]. rewrite extract_field_skip by (apply Hbefore; left; reflexivity).
      apply (IH _ key after v eq_refl); [|exact Hkey].
      intros k' Hk'. apply Hbefore. right. exact Hk'.
  - induction possible_keys as [|k keys IH]; intros Hnone; [reflexivity|].
    rewrite extract_field_skip by (apply Hnone; left; reflexivity).
    apply IH. intros k' Hk'. apply Hnone. right. exact Hk'.
  - induction possible_keys as [|k keys IH]; [left; reflexivity|].
    destruct (held data k) as [v|] eqn:Hk.
    + right. exists k. split; [left; reflexivity|].
      rewrite Hk. f_equal. unfold held in Hk. cbn [_extract_field].
      destruct (dict_get data k) as [w|]; [|discriminate].
      destruct (is_none w); [discriminate|]. congruence.
    + rewrite (extract_field_skip data k keys default Hk).
      destruct IH as [IH|(key & Hin & Hheld)]; [left; exact IH|].
      right. exists key. split; [right; exact Hin|exact Hheld].
Qed.

(** Normalising a direction twice is normalising it once: the three words
    [_normalize_signal_type] returns are read as themselves. *)
Theorem normalize_signal_type_idempotent (v : PyVal) :
  _normalize_signal_type (PStr (_normalize_signal_type v))
  = _normalize_signal_type v.
Proof.
  destruct (normalize_signal_type_range float_of_str blank_float v)
    as [-> | [-> | ->]]; reflexivity.
Qed.

Lemma float_if_set_nonzero (x : option Q) :
  absent_or_nonzero (SignalValidator.float_if_set x).
Proof.
  unfold SignalValidator.float_if_set.
  destruct (Py.truthy x) eqn:Ht; [|exact I].
  destruct x as [q|]; [|exact I]. apply truthy_Some. exact Ht.
Qed.

(** What [_parse_single_signal] returns when it returns an observation:
    the ticker and timeframe it was given, a direction among LONG, SHORT
    and HOLD, status ['new'], an entry price that is not zero, optional
    levels that are absent rather than zero, and a current price that is
    the one read from the item when that is not zero, the entry price
    otherwise - so never zero. *)
Theorem parse_single_signal_postcondition
    (now : Z) (data : list (string * PyVal)) (tk tf : string) (sd : Observation) :
  _parse_single_signal float_of_str now data tk tf = Some sd ->
  sd.(sd_ticker) = tk /\ sd.(sd_timeframe) = tf
  /\ (sd.(sd_signal_type) = "LONG" \/ sd.(sd_signal_type) = "SHORT"
      \/ sd.(sd_signal_type) = "HOLD")
  /\ sd.(sd_status) = "new" /\ sd.(sd_created_at) = now
  /\ entry_of float_of_str data = Some sd.(sd_entry_price)
  /\ ~ (sd.(sd_entry_price) == 0)%Q
  /\ absent_or_nonzero sd.(sd_take_profit)
  /\ absent_or_nonzero sd.(sd_stop_loss)
  /\ absent_or_nonzero sd.(sd_confidence)
  /\ absent_or_nonzero sd.(sd_risk_reward)
  /\ ~ (sd.(sd_current_price) == 0)%Q
  /\ (unset (_extract_numeric_field float_of_str data current_price_keys) ->
      sd.(sd_current_price) = sd.(sd_entry_price))
  /\ (forall p, _extract_numeric_field float_of_str data current_price_keys = Some p ->
                ~ (p == 0)%Q -> sd.(sd_current_price) = p)
  /\ sd.(sd_signal_category) = None /\ sd.(sd_warnings) = None
  /\ sd.(sd_correction) = None.
Proof.
  unfold _parse_single_signal, entry_of, current_price_keys.
  destruct (_extract_numeric_field float_of_str data ["entry"; "entry_price"; "price"])
    as [e|] eqn:He; [|discriminate].
  rewrite (normalize_signal_type_known float_of_str blank_float). cbn [negb].
  destruct (Py.truthy (Some e)) eqn:Hte; cbn [negb]; [|discriminate].
  apply truthy_Some in Hte.
  intros Hsd. injection Hsd as <-.
  cbn [sd_ticker sd_timeframe sd_signal_type sd_status sd_created_at
       sd_entry_price sd_take_profit sd_stop_loss sd_confidence sd_risk_reward
       sd_current_price sd_signal_category sd_warnings sd_correction].
  split; [reflexivity|]. split; [reflexivity|].
  split; [apply (normalize_signal_type_range float_of_str blank_float)|].
  split; [reflexivity|]. split; [reflexivity|]. split; [reflexivity|].
  split; [exact Hte|].
  split; [apply float_if_set_nonzero|]. split; [apply float_if_set_nonzero|].
  split; [apply float_if_set_nonzero|]. split; [apply float_if_set_nonzero|].
  destruct (_extract_numeric_field float_of_str data
              ["current_price"; "price"; "current"; "last_price"]) as [p|].
  - destruct (Py.truthy (Some p)) eqn:Htp.
    + apply truthy_Some in Htp.
      split; [exact Htp|]. split; [intros Hun; contradiction|].
      split; [intros q Hq _; congruence|]. repeat split.
    + apply truthy_unset in Htp.
      split; [exact Hte|]. split; [reflexivity|].
      split; [intros q Hq Hnz; injection Hq as <-; contradiction|]. repeat split.
  - split; [exact Hte|]. split; [reflexivity|].
    split; [intros q Hq; discriminate|]. repeat split.
Qed.

End Fields.

(** An item with entry 100 and no price of its own: the observation takes
    the entry as its current price. *)
Lemma parse_single_signal_postcondition_witness :
  exists sd,
    SignalDataParser._parse_single_signal no_text_number 0
      (raw_item "LONG" 100 110 90 80) "BTC" "1h" = Some sd
    /\ sd.(sd_current_price) = 100%Q /\ sd.(sd_signal_type) = "LONG".
Proof.
  eexists. split; [reflexivity|].
  destruct (parse_single_signal_postcondition no_text_number 0
              (raw_item "LONG" 100 110 90 80) "BTC" "1h" _ eq_refl)
    as (_ & _ & _ & _ & _ & _ & _ & _ & _ & _ & _ & _ & Hcur & _).
  split; [|reflexivity]. apply Hcur. exact I.
Defined.


(* ---------------------------------------------------------------------- *)
(** ** The parser: one item of a timeframe *)

Section TimeframeItem.

Import SignalDataParser.

Variable float_of_str : string -> option Q.

Lemma dict_get_set (d : list (string * PyVal)) (k : string) (v : PyVal) :
  dict_get (dict_set d k v) k = Some v.
Proof.
  induction d as [|[k' w] d IH]; cbn.
  - rewrite String.eqb_refl. reflexivity.
  - destruct (String.eqb_spec k' k) as [->|Hne]; cbn.
    + rewrite String.eqb_refl. reflexivity.
    + apply String.eqb_neq in Hne. rewrite Hne. exact IH.
Qed.

Lemma parse_single_basic (now : Z) (data : list (string * PyVal)) (tk tf : string)
    (sd : Observation) :
  _parse_single_signal float_of_str now data tk tf = Some sd ->
  sd.(sd_ticker) = tk /\ sd.(sd_timeframe) = tf /\ sd.(sd_status) = "new"
  /\ ~ (sd.(sd_entry_price) == 0)%Q /\ ~ (sd.(sd_current_price) == 0)%Q.
Proof.
  unfold _parse_single_signal.
  destruct (_extract_numeric_field float_of_str data ["entry"; "entry_price"; "price"])
    as [e|]; [|discriminate].
  destruct (Py.truthy (Some e)) eqn:Hte; cbn [negb]; [|discriminate].
  apply truthy_Some in Hte.
  destruct (negb _); [discriminate|].
  intros Hsd. injection Hsd as <-. cbn.
  repeat (split; [first [reflexivity | exact Hte]|]).
  destruct (_extract_numeric_field float_of_str data
              ["current_price"; "price"; "current"; "last_price"]) as [p|];
    [|exact Hte].
  destruct (Py.truthy (Some p)) eqn:Htp; [|exact Hte].
  apply truthy_Some. exact Htp.
Qed.

Lemma parse_single_current (now : Z) (data : list (string * PyVal)) (tk tf : string)
    (sd : Observation) (v : PyVal) (c : Q) :
  held data "current_price" = Some v -> py_float float_of_str v = Some c ->
  ~ (c == 0)%Q ->
  _parse_single_signal float_of_str now data tk tf = Some sd ->
  sd.(sd_current_price) = c.
Proof.
  intros Hheld Hfloat Hnz. unfold _parse_single_signal.
  assert (Hcur : _extract_numeric_field float_of_str data
                   ["current_price"; "price"; "current"; "last_price"] = Some c).
  { unfold _extract_numeric_field. cbn [_extract_field]. unfold held in Hheld.
    destruct (dict_get data "current_price") as [w|]; [|discriminate].
    destruct (is_none w) eqn:Hw; [discriminate|]. injection Hheld as ->.
    rewrite Hw. exact Hfloat. }
  rewrite Hcur. apply truthy_Some in Hnz. rewrite Hnz.
  destruct (_extract_numeric_field float_of_str data ["entry"; "entry_price"; "price"])
    as [e|]; [|discriminate].
  destruct (negb (Py.truthy (Some e))); [discriminate|].
  destruct (negb _); [discriminate|].
  intros Hsd. injection Hsd as <-. reflexivity.
Qed.

(** The item's own current price, as a nested dict sees it. *)
Lemma held_under_item (item d : list (string * PyVal)) (v : PyVal) :
  held item "current_price" = Some v ->
  held (dict_set d "current_price" (dict_get_default item "current_price"))
       "current_price" = Some v.
Proof.
  unfold held, dict_get_default. rewrite dict_get_set.
  destruct (dict_get item "current_price") as [w|]; [|discriminate].
  destruct (is_none w); [discriminate|]. trivial.
Qed.

Ltac item_leaves :=
  unfold _parse_timeframe_item;
  repeat match goal with
         | |- context [match dict_get ?i ?k with _ => _ end] =>
             let E := fresh "Eget" in
             destruct (dict_get i k) as [[| | | | | |?]|] eqn:E
         | |- context [match _parse_single_signal ?f ?n ?d ?t ?tf with _ => _ end] =>
             let E := fresh "Eparse" in
             destruct (_parse_single_signal f n d t tf) eqn:E
         end;
  cbn [app].

(** A timeframe item gives at most two observations: nothing, a main one,
    a correction one, or a main one followed by a correction one; each
    carries the ticker and the timeframe that were given, status ['new']
    and an entry price that is not zero. An item of the flat shape gives at
    most one, of category main. *)
Theorem parse_timeframe_item_shape
    (now : Z) (item : list (string * PyVal)) (tk tf : string) :
  let out := _parse_timeframe_item float_of_str now item tk tf in
  length out <= 2
  /\ (List.map sd_signal_category out = []
      \/ List.map sd_signal_category out = [Some "main"]
      \/ List.map sd_signal_category out = [Some "correction"]
      \/ List.map sd_signal_category out = [Some "main"; Some "correction"])
  /\ List.Forall (fun sd => sd.(sd_ticker) = tk /\ sd.(sd_timeframe) = tf
                            /\ sd.(sd_status) = "new"
                            /\ ~ (sd.(sd_entry_price) == 0)%Q) out
  /\ (flat_item item ->
      List.map sd_signal_category out = []
      \/ List.map sd_signal_category out = [Some "main"]).
Proof.
  cbv zeta.
  assert (Hok : forall data sd c,
             _parse_single_signal float_of_str now data tk tf = Some sd ->
             (set_signal_category sd c).(sd_ticker) = tk
             /\ (set_signal_category sd c).(sd_timeframe) = tf
             /\ (set_signal_category sd c).(sd_status) = "new"
             /\ ~ ((set_signal_category sd c).(sd_entry_price) == 0)%Q).
  { intros data sd c H. apply parse_single_basic in H. cbn. tauto. }
  split; [|split; [|split]].
  - item_leaves; cbn; lia.
  - item_leaves; cbn; auto.
  - item_leaves;
      repeat match goal with
             | |- List.Forall _ [] => constructor
             | |- List.Forall _ (_ :: _) => constructor
             | |- _ /\ _ => eapply Hok; eassumption
             end.
  - intros [Hmain Hcorr]. unfold _parse_timeframe_item. rewrite Hmain, Hcorr.
    cbn [app].
    destruct (_parse_single_signal float_of_str now item tk tf); cbn; auto.
Qed.

(** When the item holds a current price that reads as a number other than
    zero, every observation it gives carries that price, whatever the
    nested signal says of its own. *)
Theorem parse_timeframe_item_price
    (now : Z) (item : list (string * PyVal)) (tk tf : string) (v : PyVal) (c : Q) :
  held item "current_price" = Some v ->
  py_float float_of_str v = Some c ->
  ~ (c == 0)%Q ->
  List.Forall (fun sd => sd.(sd_current_price) = c)
    (_parse_timeframe_item float_of_str now item tk tf).
Proof.
  intros Hheld Hfloat Hnz.
  assert (Hflat : forall sd cat,
             _parse_single_signal float_of_str now item tk tf = Some sd ->
             (set_signal_category sd cat).(sd_current_price) = c).
  { intros sd cat H. cbn. exact (parse_single_current _ _ _ _ _ v c Hheld Hfloat Hnz H). }
  assert (Hnested : forall d sd cat,
             _parse_single_signal float_of_str now
               (dict_set d "current_price" (dict_get_default item "current_price"))
               tk tf = Some sd ->
             (set_signal_category sd cat).(sd_current_price) = c).
  { intros d sd cat H. cbn.
    exact (parse_single_current _ _ _ _ _ v c (held_under_item item d v Hheld)
             Hfloat Hnz H). }
  item_leaves;
    repeat match goal with
           | |- List.Forall _ [] => constructor
           | |- List.Forall _ (_ :: _) => constructor
           | |- _ = c =>
               first [eapply Hnested; eassumption | eapply Hflat; eassumption
                     | eapply Hflat; reflexivity]
           end.
Qed.

End TimeframeItem.

(** The 15m item [nested_item]: its main signal says 7 for the current
    price, the item says 101; both observations carry 101. *)
Lemma parse_timeframe_item_price_witness :
  List.map sd_current_price
    (SignalDataParser._parse_timeframe_item no_text_number 0 nested_item "BTC" "15m")
  = [101%Q; 101%Q]
  /\ List.map sd_signal_type
       (SignalDataParser._parse_timeframe_item no_text_number 0 nested_item "BTC" "15m")
     = ["LONG"; "SHORT"].
Proof.
  pose proof (parse_timeframe_item_price no_text_number 0 nested_item "BTC" "15m"
                (PFloat 101) 101%Q eq_refl eq_refl) as H.
  assert (Hnz : ~ (101 == 0)%Q) by discriminate.
  specialize (H Hnz).
  remember (SignalDataParser._parse_timeframe_item no_text_number 0 nested_item
              "BTC" "15m") as out eqn:Hout.
  assert (Hshape : List.map sd_signal_type out = ["LONG"; "SHORT"])
    by (subst out; reflexivity).
  split; [|exact Hshape].
  destruct out as [|a [|b [|]]]; try discriminate Hshape.
  inversion H as [|? ? Ha Hrest]; subst.
  inversion Hrest as [|? ? Hb _]; subst.
  cbn. rewrite Ha, Hb. reflexivity.
Defined.

(* ---------------------------------------------------------------------- *)
(** ** The batch as a whole *)

Section BatchTotals.

Import SignalProcessor.

Variable query_error : Observation -> option string.

(** What one observation adds to the counters and to the store. *)
Lemma save_signal_counts (now : Z) (tk : string) (session : Session)
    (results : BatchResults) (sd : Observation) :
  let out := save_signal query_error now tk (session, results) sd in
  (snd out).(total_signals) = S results.(total_signals)
  /\ (snd out).(tickers_processed) = results.(tickers_processed)
  /\ results.(saved_signals) <= (snd out).(saved_signals)
  /\ results.(updated_signals) <= (snd out).(updated_signals)
  /\ results.(errors) <= (snd out).(errors)
  /\ (snd out).(saved_signals) + (snd out).(updated_signals) + (snd out).(errors)
     <= results.(saved_signals) + results.(updated_signals) + results.(errors) + 1
  /\ length (fst out).(signals) + results.(saved_signals)
     = length session.(signals) + (snd out).(saved_signals).
Proof.
  unfold save_signal.
  destruct (query_error sd) as [e|].
  - cbn. repeat split; lia.
  - destruct (_find_existing_signal session now sd) as [[i ex]|].
    + destruct (_update_existing_signal ex sd) as [row [|]];
        cbn; rewrite length_insert; repeat split; lia.
    + cbn. rewrite length_app. cbn. repeat split; lia.
Qed.

Lemma fold_save_signal_counts (now : Z) (tk : string) (l : list Observation)
    (acc : Session * BatchResults) :
  let out := fold_left (save_signal query_error now tk) l acc in
  (snd out).(total_signals) = (snd acc).(total_signals) + length l
  /\ (snd out).(tickers_processed) = (snd acc).(tickers_processed)
  /\ (snd acc).(saved_signals) <= (snd out).(saved_signals)
  /\ (snd acc).(updated_signals) <= (snd out).(updated_signals)
  /\ (snd acc).(errors) <= (snd out).(errors)
  /\ (snd out).(saved_signals) + (snd out).(updated_signals) + (snd out).(errors)
     <= (snd acc).(saved_signals) + (snd acc).(updated_signals)
        + (snd acc).(errors) + length l
  /\ length (fst out).(signals) + (snd acc).(saved_signals)
     = length (fst acc).(signals) + (snd out).(saved_signals).
Proof.
  revert acc. induction l as [|sd l IH]; intros [session results]; cbn [fold_left].
  - cbn. repeat split; lia.
  - specialize (IH (save_signal query_error now tk (session, results) sd)).
    pose proof (save_signal_counts now tk session results sd) as Hs.
    cbv zeta in IH, Hs. cbn [fst snd length] in *.
    destruct Hs as (S1 & S2 & S3 & S4 & S5 & S6 & S7).
    destruct IH as (I1 & I2 & I3 & I4 & I5 & I6 & I7).
    repeat split; lia.
Qed.

Lemma batch_counts (now : Z) (signals_data : list (string * list Observation))
    (acc : Session * BatchResults) :
  let out := fold_left (save_ticker query_error now) signals_data acc in
  (snd out).(total_signals)
  = (snd acc).(total_signals) + length (observations signals_data)
  /\ (snd out).(tickers_processed)
     = (snd acc).(tickers_processed) + tickers_with_signals signals_data
  /\ (snd acc).(saved_signals) <= (snd out).(saved_signals)
  /\ (snd acc).(updated_signals) <= (snd out).(updated_signals)
  /\ (snd acc).(errors) <= (snd out).(errors)
  /\ (snd out).(saved_signals) + (snd out).(updated_signals) + (snd out).(errors)
     <= (snd acc).(saved_signals) + (snd acc).(updated_signals)
        + (snd acc).(errors) + length (observations signals_data)
  /\ length (fst out).(signals) + (snd acc).(saved_signals)
     = length (fst acc).(signals) + (snd out).(saved_signals).
Proof.
  revert acc. induction signals_data as [|[tk l] rest IH]; intros [session results];
    cbn [fold_left].
  - cbn. repeat split; lia.
  - unfold observations, tickers_with_signals.
    cbn [flat_map snd List.filter]. rewrite length_app.
    fold (observations rest).
    specialize (IH (save_ticker query_error now (session, results) (tk, l))).
    cbv zeta in IH. unfold tickers_with_signals in IH.
    unfold save_ticker in *.
    destruct l as [|sd l'].
    + cbn [fst snd length] in *. lia.
    + match type of IH with
      | context [fold_left ?f ?l ?a] =>
          pose proof (fold_save_signal_counts now tk l a) as Hf
      end.
      cbv zeta in Hf.
      cbn [fst snd length total_signals saved_signals updated_signals errors
           tickers_processed] in *.
      destruct Hf as (F1 & F2 & F3 & F4 & F5 & F6 & F7).
      destruct IH as (I1 & I2 & I3 & I4 & I5 & I6 & I7).
      repeat split; lia.
Qed.

(** The counts of a batch: [total_signals] is the number of observations
    in it, [tickers_processed] the number of tickers that come with at
    least one; created, updated and errors add up to no more than the
    total; the store grows by exactly the created rows. *)
Theorem batch_totals (session : Session) (now : Z)
    (signals_data : list (string * list Observation)) :
  let out := save_signals_batch query_error session now signals_data in
  (snd out).(total_signals) = length (observations signals_data)
  /\ (snd out).(tickers_processed) = tickers_with_signals signals_data
  /\ (snd out).(saved_signals) + (snd out).(updated_signals) + (snd out).(errors)
     <= (snd out).(total_signals)
  /\ length (fst out).(signals)
     = length session.(signals) + (snd out).(saved_signals).
Proof.
  pose proof (batch_counts now signals_data (session, zero_results)) as H.
  cbv zeta in *. unfold save_signals_batch.
  change {| total_signals := 0; saved_signals := 0; updated_signals := 0;
            errors := 0; tickers_processed := 0 |} with zero_results.
  cbn [fst snd zero_results total_signals saved_signals updated_signals errors
       tickers_processed] in H.
  destruct H as (H1 & H2 & _ & _ & _ & H6 & H7).
  repeat split; lia.
Qed.

End BatchTotals.

(* ---------------------------------------------------------------------- *)
(** ** The batch and the rows of the store *)

Section BatchRows.

Import SignalProcessor.

Variable query_error : Observation -> option string.

(** What holds of the store before, and is kept by every observation,
    holds after the batch. *)
Lemma batch_invariant (P : Session -> Prop) (now : Z) :
  (forall tk session results sd,
      P session -> P (fst (save_signal query_error now tk (session, results) sd))) ->
  forall signals_data acc,
    P (fst acc) ->
    P (fst (fold_left (save_ticker query_error now) signals_data acc)).
Proof.
  intros Hstep.
  assert (Hfold : forall tk l acc, P (fst acc) ->
            P (fst (fold_left (save_signal query_error now tk) l acc))).
  { intros tk l. induction l as [|sd l IH]; intros [session results] Hacc;
      [exact Hacc|].
    cbn [fold_left]. apply IH.
    destruct (save_signal query_error now tk (session, results) sd) eqn:E.
    pose proof (Hstep tk session results sd Hacc) as H. rewrite E in H. exact H. }
  induction signals_data as [|[tk l] rest IH]; intros [session results] Hacc;
    [exact Hacc|].
  cbn [fold_left]. apply IH. unfold save_ticker.
  destruct l as [|sd l']; [exact Hacc|]. apply Hfold. exact Hacc.
Qed.

Lemma same_outside_merge_refl (r : Signal) : same_outside_merge r r.
Proof. unfold same_outside_merge, same_contract. tauto. Qed.

Lemma same_outside_merge_trans (a b c : Signal) :
  same_outside_merge a b -> same_outside_merge b c -> same_outside_merge a c.
Proof.
  unfold same_outside_merge, same_contract. intuition congruence.
Qed.

Lemma kept_refl (s : Session) : kept s s.
Proof.
  split.
  - intros j r Hj. exists r. split; [exact Hj|apply same_outside_merge_refl].
  - exists []. rewrite app_nil_r. reflexivity.
Qed.

Lemma kept_trans (a b c : Session) : kept a b -> kept b c -> kept a c.
Proof.
  intros [Hab Lab] [Hbc Lbc]. split.
  - intros j r Hj. destruct (Hab j r Hj) as (r' & Hj' & Hs).
    destruct (Hbc j r' Hj') as (r'' & Hj'' & Hs').
    exists r''. split; [exact Hj''|]. eapply same_outside_merge_trans; eassumption.
  - destruct Lab as [x Hx]. destruct Lbc as [y Hy].
    exists (x ++ y). rewrite Hy, Hx, app_assoc. reflexivity.
Qed.

Lemma save_signal_kept (now : Z) (tk : string) (session : Session)
    (results : BatchResults) (sd : Observation) :
  kept session (fst (save_signal query_error now tk (session, results) sd)).
Proof.
  unfold save_signal. destruct (query_error sd) as [e|].
  - cbn. split.
    + intros j r Hj. exists r. split; [exact Hj|apply same_outside_merge_refl].
    + eexists. reflexivity.
  - destruct (_find_existing_signal session now sd) as [[i ex]|] eqn:Hfind.
    + destruct (find_existing_Some _ _ _ _ _ Hfind) as [Hi _].
      pose proof (update_frame query_error ex sd) as Hframe.
      destruct (_update_existing_signal ex sd) as [row upd].
      unfold kept. cbn [fst snd signals error_logs] in *. split.
      * intros j r Hj. destruct (decide (i = j)) as [->|Hne].
        -- exists row. rewrite list_lookup_insert_eq
             by (eapply lookup_lt_Some; exact Hj).
           split; [reflexivity|]. congruence.
        -- exists r. rewrite list_lookup_insert_ne by exact Hne.
           split; [exact Hj|apply same_outside_merge_refl].
      * exists []. rewrite app_nil_r. reflexivity.
    + cbn. split.
      * intros j r Hj. exists r. split; [|apply same_outside_merge_refl].
        apply lookup_app_l_Some. exact Hj.
      * exists []. rewrite app_nil_r. reflexivity.
Qed.

(** A batch never deletes or moves a row and never rewrites one outside
    the merge: every row of the store is found at its place afterwards
    with the same id, ticker, timeframe, direction, entry, take-profit,
    stop-loss, risk/reward, status, main flag and creation time; the
    ErrorLog is only appended to. *)
Theorem batch_keeps_rows (session : Session) (now : Z)
    (signals_data : list (string * list Observation)) :
  let out := fst (save_signals_batch query_error session now signals_data) in
  (forall j r, session.(signals) !! j = Some r ->
     exists r', out.(signals) !! j = Some r' /\ same_outside_merge r r')
  /\ exists added, out.(error_logs) = session.(error_logs) ++ added.
Proof.
  apply (batch_invariant (kept session) now); [|apply kept_refl].
  intros tk s results sd Hs. eapply kept_trans; [exact Hs|].
  apply save_signal_kept.
Qed.

Lemma freshness_nonneg : (0 <= FRESHNESS)%Z.
Proof. discriminate. Qed.

Lemma save_signal_fresh (n : nat) (now : Z) (tk : string) (session : Session)
    (results : BatchResults) (sd : Observation) :
  n <= length session.(signals) ->
  fresh_rows n now session ->
  fresh_rows n now (fst (save_signal query_error now tk (session, results) sd)).
Proof.
  intros Hn [Hnew Hkeys]. unfold save_signal. destruct (query_error sd) as [e|].
  - cbn. split; assumption.
  - destruct (_find_existing_signal session now sd) as [[k ex]|] eqn:Hfind.
    + destruct (find_existing_Some _ _ _ _ _ Hfind) as [Hk _].
      pose proof (update_frame query_error ex sd) as Hframe.
      destruct (_update_existing_signal ex sd) as [row upd].
      unfold fresh_rows. cbn [fst snd signals error_logs] in *.
      assert (Hsame : forall i r, <[k := row]> session.(signals) !! i = Some r ->
                exists r0, session.(signals) !! i = Some r0
                           /\ same_outside_merge r0 r).
      { intros i r Hi. destruct (decide (k = i)) as [->|Hne].
        - rewrite list_lookup_insert_eq in Hi by (eapply lookup_lt_Some; exact Hk).
          injection Hi as <-. exists ex. split; assumption.
        - rewrite list_lookup_insert_ne in Hi by exact Hne.
          exists r. split; [exact Hi|apply same_outside_merge_refl]. }
      split.
      * intros i r Hi Hr. destruct (Hsame i r Hr) as (r0 & Hr0 & Hs).
        destruct (Hnew i r0 Hi Hr0) as [Hc Hst].
        unfold same_outside_merge in Hs. intuition congruence.
      * intros i j ri rj Hi Hij Hri Hrj.
        destruct (Hsame i ri Hri) as (ri0 & Hri0 & Hsi).
        destruct (Hsame j rj Hrj) as (rj0 & Hrj0 & Hsj).
        pose proof (Hkeys i j ri0 rj0 Hi Hij Hri0 Hrj0) as Hd.
        unfold same_key in *. unfold same_outside_merge in Hsi, Hsj.
        intros [Ht Hf]. apply Hd. intuition congruence.
    + cbn. set (row := new_signal_row (S (length session.(signals))) now sd).
      split.
      * intros i r Hi Hr. apply lookup_app_Some in Hr.
        destruct Hr as [Hr | [_ Hr]]; [exact (Hnew i r Hi Hr)|].
        destruct (i - length session.(signals)); [|discriminate Hr].
        injection Hr as <-. split; reflexivity.
      * intros i j ri rj Hi Hij Hri Hrj.
        apply lookup_app_Some in Hri. apply lookup_app_Some in Hrj.
        destruct Hri as [Hri | [Hli Hri]].
        -- destruct Hrj as [Hrj | [Hlj Hrj]];
             [exact (Hkeys i j ri rj Hi Hij Hri Hrj)|].
           destruct (j - length session.(signals)); [|discriminate Hrj].
           injection Hrj as <-.
           destruct (Hnew i ri Hi Hri) as [Hc Hst].
           assert (Hin : In ri session.(signals)).
           { apply list_elem_of_In. eapply list_elem_of_lookup_2. exact Hri. }
           pose proof (find_existing_None session now sd ri Hfind Hin) as Hno.
           intros [Ht Hf]. cbn in Ht, Hf.
           assert (Hyes : matches_query sd.(sd_ticker) sd.(sd_timeframe)
                            (now - FRESHNESS) ri = true).
           { apply matches_query_spec. pose proof freshness_nonneg.
             repeat split; [exact Ht|exact Hf|lia|left; exact Hst]. }
           congruence.
        -- exfalso. apply lookup_lt_Some in Hri. cbn [length] in Hri.
           destruct Hrj as [Hrj | [Hlj Hrj]];
             apply lookup_lt_Some in Hrj; cbn [length] in Hrj; lia.
Qed.

Lemma save_signal_grows (now : Z) (tk : string) (session : Session)
    (results : BatchResults) (sd : Observation) :
  length session.(signals)
  <= length (fst (save_signal query_error now tk (session, results) sd)).(signals).
Proof.
  pose proof (save_signal_counts query_error now tk session results sd) as H.
  cbv zeta in H. lia.
Qed.

(** A batch creates at most one row for a (ticker, timeframe): of the rows
    it adds to the store, no two are of the same instrument and timeframe;
    each of them is new and stamped with the clock of the batch. *)
Theorem batch_creates_one_row_per_key (session : Session) (now : Z)
    (signals_data : list (string * list Observation)) :
  let out := fst (save_signals_batch query_error session now signals_data) in
  let n := length session.(signals) in
  (forall i r, n <= i -> out.(signals) !! i = Some r ->
     r.(created_at) = now /\ r.(status) = "new")
  /\ forall i j ri rj, n <= i -> i < j ->
       out.(signals) !! i = Some ri -> out.(signals) !! j = Some rj ->
       ~ same_key ri rj.
Proof.
  cbv zeta.
  pose proof (batch_invariant
                (fun s => length session.(signals) <= length s.(signals)
                          /\ fresh_rows (length session.(signals)) now s) now) as H.
  apply H; clear H.
  - intros tk s results sd [Hlen Hfresh]. split.
    + etransitivity; [exact Hlen|]. apply save_signal_grows.
    + apply save_signal_fresh; assumption.
  - cbn [fst]. split; [lia|]. split.
    + intros i r Hi Hr. apply lookup_lt_Some in Hr. lia.
    + intros i j ri rj Hi Hij Hri Hrj. apply lookup_lt_Some in Hri. lia.
Qed.

End BatchRows.

(** BTC 1h comes twice in [repeated_key_batch]: the batch creates two
    rows, one for BTC 1h and one for the other instrument. *)
Lemma batch_creates_one_row_per_key_witness :
  let out := fst (SignalProcessor.save_signals_batch no_query_error empty_session 0
                    repeated_key_batch) in
  List.map ticker out.(signals) = ["BTC"; "AVAX"]
  /\ forall ri rj, out.(signals) !! 0%nat = Some ri -> out.(signals) !! 1%nat = Some rj ->
       ~ same_key ri rj.
Proof.
  cbv zeta. split; [reflexivity|].
  intros ri rj Hi Hj.
  destruct (batch_creates_one_row_per_key no_query_error empty_session 0
              repeated_key_batch) as [_ Hkeys].
  apply (Hkeys 0%nat 1%nat ri rj); [cbn; lia|lia|exact Hi|exact Hj].
Defined.

(* ---------------------------------------------------------------------- *)
(** ** The run ledger adds up *)

Section LedgerBalance.

Import SignalScheduler.

Lemma filter_insert_count (P : Thread -> bool) (l : list Thread) (i : nat)
    (x y : Thread) :
  l !! i = Some x ->
  length (List.filter P (<[i := y]> l)) + (if P x then 1 else 0)
  = length (List.filter P l) + (if P y then 1 else 0).
Proof.
  revert i. induction l as [|a l IH]; intros [|i] Hi; try discriminate Hi.
  - injection Hi as ->.
    change (<[0 := y]> (x :: l)) with (y :: l). cbn [List.filter].
    destruct (P x), (P y); cbn [length]; lia.
  - change ((a :: l) !! S i) with (l !! i) in Hi. specialize (IH i Hi).
    change (<[S i := y]> (a :: l)) with (a :: <[i := y]> l). cbn [List.filter].
    destruct (P a); cbn [length]; lia.
Qed.

Lemma filter_app_count (P : Thread -> bool) (l : list Thread) (x : Thread) :
  length (List.filter P (l ++ [x]))
  = length (List.filter P l) + (if P x then 1 else 0).
Proof.
  rewrite List.filter_app, length_app. cbn. destruct (P x); reflexivity.
Qed.

Lemma balance_init : ledger_balance init.
Proof. unfold ledger_balance. cbn. tauto. Qed.

Lemma balance_step (self : Scheduler) (ev : Event) :
  ledger_balance self -> ledger_balance (step self ev).
Proof.
  unfold ledger_balance, runs_in_flight.
  intros (Hruns & Hres & Htime).
  destruct ev as [|i job_start|i now outcome|outcome]; cbn [step].
  - unfold _run_signal_processing_job. destruct (job_alive self);
      [tauto|].
    cbn [total_runs successful_runs failed_runs threads last_run_result
         last_run_time].
    rewrite filter_app_count. cbn [in_body]. split; [lia|tauto].
  - destruct (self.(threads) !! i) as [[| |]|] eqn:Hi; try tauto.
    unfold _execute_signal_processing_begin.
    cbn [total_runs successful_runs failed_runs threads last_run_result
         last_run_time].
    pose proof (filter_insert_count in_body _ i Started (Running job_start) Hi) as Hc.
    cbn [in_body] in Hc.
    split; [lia|]. split; [exact Hres|]. split; [discriminate|lia].
  - destruct (self.(threads) !! i) as [[|js|]|] eqn:Hi; try tauto.
    unfold _execute_signal_processing_end.
    cbn [total_runs successful_runs failed_runs threads last_run_result
         last_run_time].
    pose proof (filter_insert_count in_body _ i (Running js) Finished Hi) as Hc.
    cbn [in_body] in Hc.
    destruct outcome; (split; [lia|]); (split; [split; [discriminate|lia]|]);
      (split; [intros H; apply Htime in H; lia|intros H; lia]).
  - unfold run_manual. destruct (job_alive self); cbn; tauto.
Qed.

Lemma balance_run (evs : list Event) (self : Scheduler) :
  ledger_balance self -> ledger_balance (run self evs).
Proof.
  revert self. induction evs as [|ev evs IH]; intros self H; [exact H|].
  apply IH. apply balance_step. exact H.
Qed.

Lemma in_body_alive (l : list Thread) :
  length (List.filter in_body l) <= length (List.filter is_alive l).
Proof.
  induction l as [|[|js|] l IH]; cbn; lia.
Qed.

Lemma rate_bounds (s t : nat) :
  s <= t -> 0 < t ->
  (0 <= inject_Z (Z.of_nat s) / inject_Z (Z.of_nat t) * 100 <= 100)%Q.
Proof.
  intros Hst Ht.
  assert (Hs0 : (0 <= inject_Z (Z.of_nat s))%Q)
    by (change 0%Q with (inject_Z 0); rewrite <- Zle_Qle; lia).
  assert (Ht0 : (0 < inject_Z (Z.of_nat t))%Q)
    by (change 0%Q with (inject_Z 0); rewrite <- Zlt_Qlt; lia).
  assert (Hle : (inject_Z (Z.of_nat s) <= inject_Z (Z.of_nat t))%Q)
    by (rewrite <- Zle_Qle; lia).
  assert (Hq0 : (0 <= inject_Z (Z.of_nat s) / inject_Z (Z.of_nat t))%Q).
  { apply Qle_shift_div_l; [exact Ht0|]. rewrite Qmult_0_l. exact Hs0. }
  assert (Hq1 : (inject_Z (Z.of_nat s) / inject_Z (Z.of_nat t) <= 1)%Q).
  { apply Qle_shift_div_r; [exact Ht0|]. rewrite Qmult_1_l. exact Hle. }
  split.
  - apply Qmult_le_0_compat; [exact Hq0|discriminate].
  - apply Qle_trans with (1 * 100)%Q; [|discriminate].
    apply Qmult_le_compat_r; [exact Hq1|discriminate].
Qed.

(** In every scheduler the events produce the ledger adds up: the runs
    begun are the runs that succeeded, the runs that failed and the run in
    flight, of which there is at most one; [last_run_success] is unknown
    exactly as long as no run has ended, [last_run_time] exactly as long as
    none has begun; and the success rate [get_status] reports lies between
    0 and 100. *)
Theorem ledger_adds_up (evs : list Event) :
  let self := run init evs in
  self.(total_runs) = self.(successful_runs) + self.(failed_runs) + runs_in_flight self
  /\ runs_in_flight self <= 1
  /\ ((get_status self).(st_last_run_success) = None
      <-> self.(successful_runs) + self.(failed_runs) = 0)
  /\ ((get_status self).(st_last_run_time) = None <-> self.(total_runs) = 0)
  /\ (0 <= (get_status self).(st_success_rate) <= 100)%Q.
Proof.
  cbv zeta.
  destruct (balance_run evs init balance_init) as (Hruns & Hres & Htime).
  destruct (invariant_run evs init invariant_init) as [_ Halive].
  pose proof (alive_at_most_one _ _ Halive) as Hone.
  pose proof (in_body_alive (run init evs).(threads)) as Hbody.
  split; [exact Hruns|]. split; [unfold runs_in_flight; lia|].
  split.
  - unfold get_status. cbn [st_last_run_success].
    rewrite <- Hres. destruct (last_run_result (run init evs)); split;
      intros H; first [reflexivity | discriminate H].
  - split; [exact Htime|].
    unfold get_status. cbn [st_success_rate].
    destruct (0 <? total_runs (run init evs))%nat eqn:Hpos.
    + apply Nat.ltb_lt in Hpos. apply rate_bounds; lia.
    + split; discriminate.
Qed.

End LedgerBalance.

(* ---------------------------------------------------------------------- *)
(** ** Stopping the scheduler *)

Section Stop.

Import SignalScheduler SchedulerStop.

Variable alive_after : nat -> bool.



End Stop.

(** A job thread that ends 25 seconds after the call is waited for during
    30 seconds. *)
Lemma stop_waits_example :
  snd (SchedulerStop.stop
         (SignalScheduler.step SignalScheduler.init SignalScheduler.Trigger)
         ends_after_25) = 30.
Proof. reflexivity. Qed.

(* ---------------------------------------------------------------------- *)
(** ** The retry loop of the API client *)

Section Retries.

Import SignalAPIClient.

Variable response_truthy : Response -> bool.
Variable request : nat -> Attempt.
Variable retries : Z.

Lemma pause_bound (outcome : Attempt) (p : nat) :
  pause_after response_truthy outcome = Some p -> 1 <= p <= 3.
Proof.
  destruct outcome as [d| | |response| |]; cbn; try discriminate.
  - intros [= <-]. lia.
  - intros [= <-]. lia.
  - destruct (client_error response_truthy response); [discriminate|].
    intros [= <-]. lia.
Qed.

Lemma pauses_bound (k : nat) : pauses response_truthy request k <= 3 * k.
Proof.
  induction k as [|k IH]; cbn [pauses]; [lia|].
  destruct (pause_after response_truthy (request k)) as [p|] eqn:Hp; unfold default; cbn [from_option Datatypes.id].
  - apply pause_bound in Hp. lia.
  - lia.
Qed.

(** The loop from pass [attempt] on, [waited] being the pauses so far. *)
Lemma attempts_spec (passes : nat) :
  forall attempt waited,
  Z.of_nat (S passes + attempt) = (retries + 1)%Z ->
  waited = pauses response_truthy request attempt ->
  let r := attempts response_truthy request (S passes) retries attempt waited in
  exists last,
    r.(requests) = S last
    /\ attempt <= last <= passes + attempt
    /\ r.(slept) = pauses response_truthy request last
    /\ (forall j, attempt <= j -> j < last -> pause_after response_truthy (request j) <> None)
    /\ (last < passes + attempt -> pause_after response_truthy (request last) = None)
    /\ r.(result) = match request last with Data data => data | _ => PNone end.
Proof.
  induction passes as [|passes IH]; intros attempt waited Hn Hw; cbv zeta.
  - assert (Hlast : (Z.of_nat attempt <? retries)%Z = false)
      by (apply Z.ltb_ge; lia).
    exists attempt. cbn [attempts]. rewrite Hlast.
    destruct (request attempt) as [d| | |response| |] eqn:Hr;
      try destruct (client_error response_truthy response);
      cbn [requests slept result];
      (split; [reflexivity|]); (split; [lia|]); (split; [exact Hw|]);
      (split; [intros j H1 H2; lia|]); (split; [intros H; lia|reflexivity]).
  - assert (Hmore : (Z.of_nat attempt <? retries)%Z = true)
      by (apply Z.ltb_lt; lia).
    assert (Hstop : pause_after response_truthy (request attempt) = None ->
              exists last,
                S attempt = S last
                /\ attempt <= last <= S passes + attempt
                /\ waited = pauses response_truthy request last
                /\ (forall j, attempt <= j -> j < last -> pause_after response_truthy (request j) <> None)
                /\ (last < S passes + attempt -> pause_after response_truthy (request last) = None)).
    { intros Hp. exists attempt. split; [reflexivity|]. split; [lia|].
      split; [exact Hw|]. split; [intros j H1 H2; lia|]. intros _. exact Hp. }
    assert (Hnext : forall p, pause_after response_truthy (request attempt) = Some p ->
              let r := attempts response_truthy request (S passes) retries (S attempt) (waited + p) in
              exists last,
                r.(requests) = S last
                /\ attempt <= last <= S passes + attempt
                /\ r.(slept) = pauses response_truthy request last
                /\ (forall j, attempt <= j -> j < last -> pause_after response_truthy (request j) <> None)
                /\ (last < S passes + attempt -> pause_after response_truthy (request last) = None)
                /\ r.(result)
                   = match request last with Data data => data | _ => PNone end).
    { intros p Hp. cbv zeta.
      destruct (IH (S attempt) (waited + p)) as (last & H1 & H2 & H3 & H4 & H5 & H6).
      - lia.
      - cbn [pauses]. rewrite Hp. unfold default; cbn [from_option Datatypes.id]. lia.
      - exists last. split; [exact H1|]. split; [lia|]. split; [exact H3|].
        split; [|split; [intros H; apply H5; lia|exact H6]].
        intros j Hj1 Hj2. destruct (decide (j = attempt)) as [->|Hne].
        + rewrite Hp. discriminate.
        + apply H4; lia. }
    cbn [attempts]. rewrite Hmore.
    destruct (request attempt) as [d| | |response| |] eqn:Hr.
    + destruct (Hstop eq_refl) as (last & [= <-] & H2 & H3 & H4 & H5).
      exists attempt. cbn [requests slept result].
      repeat (split; [assumption || reflexivity|]). rewrite Hr. reflexivity.
    + apply (Hnext 1). reflexivity.
    + apply (Hnext 2). reflexivity.
    + cbn [pause_after] in Hstop, Hnext.
      destruct (client_error response_truthy response).
      * destruct (Hstop eq_refl) as (last & [= <-] & H2 & H3 & H4 & H5).
        exists attempt. cbn [requests slept result].
        repeat (split; [assumption || reflexivity|]). rewrite Hr. reflexivity.
      * apply (Hnext 3). reflexivity.
    + destruct (Hstop eq_refl) as (last & [= <-] & H2 & H3 & H4 & H5).
      exists attempt. cbn [requests slept result].
      repeat (split; [assumption || reflexivity|]). rewrite Hr. reflexivity.
    + destruct (Hstop eq_refl) as (last & [= <-] & H2 & H3 & H4 & H5).
      exists attempt. cbn [requests slept result].
      repeat (split; [assumption || reflexivity|]). rewrite Hr. reflexivity.
Qed.

(** [get_multi_signal] sends no request when [retries] is negative.
    Otherwise it sends at least one and at most [retries + 1]: it goes on
    after a timeout (one second later), a connection error (two seconds)
    and an HTTP error its test does not take for a 4xx (three seconds),
    and stops at the first pass that ends otherwise, or at the last pass
    allowed; after the last request it does not sleep, so it sleeps at most
    three seconds per retry. What it returns is the body the last request
    decoded, and [None] when that request failed. *)
Theorem get_multi_signal_retries :
  let r := get_multi_signal response_truthy request retries in
  ((retries < 0)%Z ->
     r.(requests) = 0 /\ r.(slept) = 0 /\ r.(result) = PNone)
  /\ ((0 <= retries)%Z ->
      exists last,
        r.(requests) = S last
        /\ (Z.of_nat last <= retries)%Z
        /\ (forall j, j < last -> pause_after response_truthy (request j) <> None)
        /\ ((Z.of_nat last < retries)%Z ->
            pause_after response_truthy (request last) = None)
        /\ r.(slept) = pauses response_truthy request last
        /\ r.(slept) <= 3 * last
        /\ r.(result) = match request last with Data data => data | _ => PNone end).
Proof.
  cbv zeta. unfold get_multi_signal. split.
  - intros Hneg. replace (Z.to_nat (retries + 1)) with 0 by lia.
    cbn. repeat split.
  - intros Hpos.
    destruct (Z.to_nat (retries + 1)) as [|passes] eqn:Hpasses; [lia|].
    destruct (attempts_spec passes 0 0) as (last & H1 & H2 & H3 & H4 & H5 & H6).
    + lia.
    + reflexivity.
    + exists last. split; [exact H1|]. split; [lia|].
      split; [intros j Hj; apply H4; lia|].
      split; [intros Hlt; apply H5; lia|].
      split; [exact H3|]. split; [|exact H6].
      rewrite H3. pose proof (pauses_bound last). lia.
Qed.

End Retries.

(** With the default of two retries, a request that times out once is
    sent twice, one second apart, and the second body is returned,
    whatever the truth value of a response is. *)
Lemma get_multi_signal_example (response_truthy : SignalAPIClient.Response -> bool) :
  SignalAPIClient.get_multi_signal response_truthy one_timeout 2
  = {| SignalAPIClient.result := PList [];
       SignalAPIClient.requests := 2;
       SignalAPIClient.slept := 1 |}.
Proof. reflexivity. Qed.

(* ---------------------------------------------------------------------- *)
(** ** The processing cycle *)

Section ProcessingCycle.

Import SignalDataParser SignalProcessor SignalManager SignalCycle.

Variable float_of_str : string -> option Q.
Variable format_float : Q -> string.
Variable query_error : Observation -> option string.

Lemma prices_get_set_eq (prices : list (string * Q)) (k : string) (v : Q) :
  ActiveSignals.prices_get (prices_set prices k v) k = Some v.
Proof.
  induction prices as [|[k' v'] rest IH]; cbn [prices_set ActiveSignals.prices_get].
  - rewrite String.eqb_refl. reflexivity.
  - destruct (String.eqb_spec k' k) as [->|Hne]; cbn [ActiveSignals.prices_get].
    + rewrite String.eqb_refl. reflexivity.
    + apply String.eqb_neq in Hne. rewrite Hne. exact IH.
Qed.

Lemma prices_get_set_ne (prices : list (string * Q)) (k k' : string) (v : Q) :
  k <> k' -> ActiveSignals.prices_get (prices_set prices k v) k' = ActiveSignals.prices_get prices k'.
Proof.
  intros Hkk. induction prices as [|[k0 v0] rest IH]; cbn [prices_set ActiveSignals.prices_get].
  - apply String.eqb_neq in Hkk. rewrite Hkk. reflexivity.
  - destruct (String.eqb_spec k0 k) as [->|Hne]; cbn [ActiveSignals.prices_get].
    + apply String.eqb_neq in Hkk. rewrite Hkk. reflexivity.
    + destruct (k0 =? k'); [reflexivity|exact IH].
Qed.

Lemma collect_other (processed : list (string * list Observation))
    (acc : list (string * Q)) (tk : string) :
  ~ In tk (List.map fst processed) ->
  ActiveSignals.prices_get (fold_left collect_price processed acc) tk = ActiveSignals.prices_get acc tk.
Proof.
  revert acc. induction processed as [|[k sigs] rest IH]; intros acc Hnot;
    [reflexivity|].
  cbn [fold_left]. rewrite IH by (intros H; apply Hnot; right; exact H).
  assert (Hk : k <> tk) by (intros ->; apply Hnot; left; reflexivity).
  unfold collect_price. destruct sigs as [|first more]; [reflexivity|].
  destruct (Py.truthy _); [|reflexivity].
  apply prices_get_set_ne. exact Hk.
Qed.

Lemma collect_found (processed : list (string * list Observation))
    (acc : list (string * Q)) (tk : string) (first : Observation)
    (more : list Observation) :
  List.NoDup (List.map fst processed) ->
  In (tk, first :: more) processed ->
  ~ (first.(sd_current_price) == 0)%Q ->
  ActiveSignals.prices_get (fold_left collect_price processed acc) tk
  = Some first.(sd_current_price).
Proof.
  intros Hnd Hin Hnz. revert acc Hnd Hin.
  induction processed as [|[k sigs] rest IH]; intros acc Hnd Hin; [destruct Hin|].
  cbn [List.map fst] in Hnd. apply List.NoDup_cons_iff in Hnd.
  destruct Hnd as [Hk Hnd]. cbn [fold_left].
  destruct Hin as [Heq|Hin].
  - injection Heq as -> ->. rewrite collect_other by exact Hk.
    unfold collect_price. apply truthy_Some in Hnz. rewrite Hnz.
    apply prices_get_set_eq.
  - apply IH; assumption.
Qed.

Lemma parse_item_priced (now : Z) (item : list (string * PyVal)) (tk tf : string) :
  List.Forall (priced_for tk) (_parse_timeframe_item float_of_str now item tk tf).
Proof.
  assert (Hok : forall data sd c,
             _parse_single_signal float_of_str now data tk tf = Some sd ->
             priced_for tk (set_signal_category sd c)).
  { intros data sd c H. apply parse_single_basic in H.
    unfold priced_for. cbn. tauto. }
  unfold _parse_timeframe_item;
    repeat match goal with
           | |- context [match dict_get ?i ?k with _ => _ end] =>
               let E := fresh "Eget" in
               destruct (dict_get i k) as [[| | | | | |?]|] eqn:E
           | |- context [match _parse_single_signal ?f ?n ?d ?t ?tf with _ => _ end] =>
               let E := fresh "Eparse" in
               destruct (_parse_single_signal f n d t tf) eqn:E
           end;
    cbn [app];
    repeat match goal with
           | |- List.Forall _ [] => constructor
           | |- List.Forall _ (_ :: _) => constructor
           | |- priced_for _ _ => eapply Hok; eassumption
           end.
Qed.

Lemma parse_response_priced (now : Z)
    (data : list (string * list (string * PyVal))) (tk : string) :
  List.Forall (priced_for tk) (parse_signal_response float_of_str now data tk).
Proof.
  unfold parse_signal_response.
  induction data as [|[tf item] rest IH]; cbn [flat_map]; [constructor|].
  apply List.Forall_app. split; [apply parse_item_priced|exact IH].
Qed.

Lemma analyze_priced (tk : string) (l : list Observation) :
  List.Forall (priced_for tk) l ->
  List.Forall (priced_for tk)
    (ConfidenceAnalyzer.analyze_confidence_warnings format_float l).
Proof.
  induction 1 as [|sd l Hsd _ IH]; cbn [ConfidenceAnalyzer.analyze_confidence_warnings];
    constructor; [|exact IH].
  unfold priced_for in *. cbn. exact Hsd.
Qed.

Lemma processed_priced (now : Z)
    (raw : list (string * list (string * list (string * PyVal))))
    (tk : string) (sigs : list Observation) :
  In (tk, sigs) (parse_and_analyze float_of_str format_float now raw) ->
  sigs <> [] /\ List.Forall (priced_for tk) sigs /\ In tk (List.map fst raw).
Proof.
  induction raw as [|[k data] rest IH]; cbn [parse_and_analyze]; [intros []|].
  pose proof (parse_response_priced now data k) as Hp.
  destruct (parse_signal_response float_of_str now data k) as [|a l] eqn:E.
  - intros H. destruct (IH H) as (H1 & H2 & H3).
    split; [exact H1|]. split; [exact H2|]. right. exact H3.
  - intros [Heq|H].
    + injection Heq as <- <-. split; [discriminate|].
      split; [exact (analyze_priced k (a :: l) Hp)|]. left. reflexivity.
    + destruct (IH H) as (H1 & H2 & H3).
      split; [exact H1|]. split; [exact H2|]. right. exact H3.
Qed.

Lemma processed_nodup (now : Z)
    (raw : list (string * list (string * list (string * PyVal)))) :
  List.NoDup (List.map fst raw) ->
  List.NoDup (List.map fst (parse_and_analyze float_of_str format_float now raw)).
Proof.
  induction raw as [|[k data] rest IH]; cbn [parse_and_analyze List.map fst];
    [intros _; constructor|].
  intros Hnd. apply List.NoDup_cons_iff in Hnd. destruct Hnd as [Hk Hnd].
  destruct (parse_signal_response float_of_str now data k) as [|a l];
    [exact (IH Hnd)|].
  cbn [List.map fst]. constructor; [|exact (IH Hnd)].
  intros Hin. apply Hk. apply List.in_map_iff in Hin.
  destruct Hin as ([k' sigs] & Hfst & Hin). cbn in Hfst. subst k'.
  apply processed_priced in Hin. tauto.
Qed.

(** What holds of the store before, and is kept by every observation of
    the batch, holds after the batch. *)
Lemma batch_invariant_on (Q : Observation -> Prop) (P : Session -> Prop) (now : Z) :
  (forall tk session results sd,
      Q sd -> P session ->
      P (fst (save_signal query_error now tk (session, results) sd))) ->
  forall signals_data acc,
    List.Forall (fun item => List.Forall Q (snd item)) signals_data ->
    P (fst acc) ->
    P (fst (fold_left (save_ticker query_error now) signals_data acc)).
Proof.
  intros Hstep.
  assert (Hfold : forall tk l acc, List.Forall Q l -> P (fst acc) ->
            P (fst (fold_left (save_signal query_error now tk) l acc))).
  { intros tk l. induction l as [|sd l IH]; intros [session results] HQ Hacc;
      [exact Hacc|].
    apply List.Forall_cons_iff in HQ. destruct HQ as [Hsd HQ].
    cbn [fold_left]. apply IH; [exact HQ|].
    destruct (save_signal query_error now tk (session, results) sd) eqn:E.
    pose proof (Hstep tk session results sd Hsd Hacc) as H. rewrite E in H. exact H. }
  induction signals_data as [|[tk l] rest IH]; intros [session results] HQ Hacc;
    [exact Hacc|].
  apply List.Forall_cons_iff in HQ. destruct HQ as [Hl HQ]. cbn [snd] in Hl.
  cbn [fold_left]. apply IH; [exact HQ|]. unfold save_ticker.
  destruct l as [|sd l']; [exact Hacc|]. apply Hfold; [exact Hl|exact Hacc].
Qed.

(** The rows a batch creates are new, stamped with the clock of the batch
    and of a ticker of one of its observations. *)
Lemma save_signal_created (T : list string) (n : nat) (now : Z) (tk : string)
    (session : Session) (results : BatchResults) (sd : Observation) :
  In sd.(sd_ticker) T ->
  (forall i r, n <= i -> session.(signals) !! i = Some r ->
     r.(status) = "new" /\ r.(created_at) = now /\ In r.(ticker) T) ->
  forall i r, n <= i ->
    (fst (save_signal query_error now tk (session, results) sd)).(signals) !! i
    = Some r ->
    r.(status) = "new" /\ r.(created_at) = now /\ In r.(ticker) T.
Proof.
  intros HT Hrows. unfold save_signal. destruct (query_error sd) as [e|].
  - cbn. exact Hrows.
  - destruct (_find_existing_signal session now sd) as [[k ex]|] eqn:Hfind.
    + destruct (find_existing_Some _ _ _ _ _ Hfind) as [Hk _].
      pose proof (update_frame query_error ex sd) as Hframe.
      destruct (_update_existing_signal ex sd) as [row upd].
      cbn [fst snd signals error_logs] in *.
      intros i r Hi Hr. destruct (decide (k = i)) as [->|Hne].
      * rewrite list_lookup_insert_eq in Hr by (eapply lookup_lt_Some; exact Hk).
        injection Hr as <-. destruct (Hrows i ex Hi Hk) as (H1 & H2 & H3).
        unfold same_outside_merge in Hframe.
        destruct Hframe as (_ & _ & Ht & _ & _ & Hs & _ & Hc).
        rewrite <- Hs, <- Hc, <- Ht. tauto.
      * rewrite list_lookup_insert_ne in Hr by exact Hne.
        exact (Hrows i r Hi Hr).
    + cbn [_create_new_signal fst snd signals]. intros i r Hi Hr.
      apply lookup_app_Some in Hr. destruct Hr as [Hr | [_ Hr]];
        [exact (Hrows i r Hi Hr)|].
      destruct (i - length session.(signals)); [|discriminate Hr].
      injection Hr as <-. cbn. tauto.
Qed.

(** What the validation pass does to a new row whose price is known. *)
Lemma validate_new_row (prices : list (string * Q)) (r : Signal) (p : Q) :
  r.(status) = "new" ->
  ActiveSignals.price_for prices r = Some p ->
  let r' := validate_row prices r in
  r'.(ticker) = r.(ticker) /\ r'.(created_at) = r.(created_at)
  /\ ((r'.(status) = "entry_hit" /\ entry_condition r' p
       /\ r'.(current_price) = Some p)
      \/ (r'.(status) = "new" /\ ~ entry_condition r' p)).
Proof.
  intros Hnew Hprice. cbv zeta. unfold validate_row.
  assert (Hact : ActiveSignals.is_active r = true).
  { unfold ActiveSignals.is_active. rewrite Hnew. reflexivity. }
  rewrite Hact, Hprice. unfold SignalValidator.validate_signal.
  assert (Hres : SignalValidator._check_signal_execution r p
                 = if SignalValidator._check_entry_execution
                        (Py.upper r.(signal_type)) p r.(entry_price)
                   then "entry_hit" else "new").
  { unfold SignalValidator._check_signal_execution. rewrite Hnew. reflexivity. }
  rewrite Hres, Hnew.
  destruct (SignalValidator._check_entry_execution _ p _) eqn:E; cbn.
  - split; [reflexivity|]. split; [reflexivity|]. left.
    split; [reflexivity|]. split; [|reflexivity].
    unfold entry_condition, is_long, is_short. cbn.
    apply entry_execution_spec. exact E.
  - split; [reflexivity|]. split; [reflexivity|]. right.
    split; [exact Hnew|]. unfold entry_condition, is_long, is_short.
    intros H. apply entry_execution_spec in H. congruence.
Qed.

(** A cycle checks the rows it creates in the same run, each against the
    current price of the first signal its ticker came with, whatever the
    timeframe of the row: by the end of the cycle a created row is in
    ['entry_hit'] when its entry condition holds at that price and in
    ['new'] otherwise, never further. The tickers of the fetched data are
    the keys of a dict. *)
Theorem cycle_checks_created_rows (session : Session) (now : Z)
    (raw_signals_data : list (string * list (string * list (string * PyVal)))) :
  List.NoDup (List.map fst raw_signals_data) ->
  checked_at_first_price
    (parse_and_analyze float_of_str format_float now raw_signals_data)
    now (length session.(signals))
    (fst (fetch_and_process_all_signals float_of_str format_float query_error
            session now raw_signals_data)).
Proof.
  intros Hnd. unfold fetch_and_process_all_signals.
  set (processed := parse_and_analyze float_of_str format_float now raw_signals_data).
  set (prices := collect_current_prices processed).
  set (T := List.map fst processed).
  assert (Hsaved : exists saved save_results,
            match processed with
            | [] =>
                (session,
                 {| total_signals := 0; saved_signals := 0; updated_signals := 0;
                    errors := 0; tickers_processed := 0 |})
            | _ => save_signals_batch query_error session now processed
            end = (saved, save_results)
            /\ forall i r, length session.(signals) <= i ->
                 saved.(signals) !! i = Some r ->
                 r.(status) = "new" /\ r.(created_at) = now /\ In r.(ticker) T).
  { assert (Hbatch : forall i r, length session.(signals) <= i ->
              (fst (save_signals_batch query_error session now processed)).(signals)
                !! i = Some r ->
              r.(status) = "new" /\ r.(created_at) = now /\ In r.(ticker) T).
    { unfold save_signals_batch.
      apply (batch_invariant_on (fun sd => In sd.(sd_ticker) T)
               (fun s => forall i r, length session.(signals) <= i ->
                  s.(signals) !! i = Some r ->
                  r.(status) = "new" /\ r.(created_at) = now /\ In r.(ticker) T)).
      - intros tk s results sd HT Hrows. apply save_signal_created; assumption.
      - apply List.Forall_forall. intros [tk sigs] Hin. cbn [snd].
        destruct (processed_priced now raw_signals_data tk sigs Hin)
          as (_ & Hpriced & _).
        eapply List.Forall_impl; [|exact Hpriced].
        intros sd [Htk _]. rewrite Htk. unfold T.
        apply List.in_map_iff. exists (tk, sigs). split; [reflexivity|exact Hin].
      - cbn [fst]. intros i r Hi Hr. apply lookup_lt_Some in Hr. lia. }
    destruct processed as [|item rest] eqn:Eproc.
    - eexists _, _. split; [reflexivity|]. exact Hbatch.
    - destruct (save_signals_batch query_error session now (item :: rest))
        as [saved save_results].
      exists saved, save_results. split; [reflexivity|]. exact Hbatch. }
  destruct Hsaved as (saved & save_results & -> & Hrows).
  pose proof (validate_signals prices saved) as [Hmap _].
  destruct (ActiveSignals.validate_active_signals saved prices) as [validated validation_results].
  cbn [fst] in *. unfold checked_at_first_price. intros i row Hi Hrow.
  rewrite Hmap, list_lookup_fmap in Hrow.
  destruct (saved.(signals) !! i) as [r|] eqn:Hr; [|discriminate Hrow].
  injection Hrow as <-.
  destruct (Hrows i r Hi Hr) as (Hnew & Hcreated & HT).
  unfold T in HT. apply List.in_map_iff in HT.
  destruct HT as ([tk sigs] & Htk & Hin). cbn [fst] in Htk. subst tk.
  destruct (processed_priced now raw_signals_data _ sigs Hin) as (Hne & Hpriced & _).
  destruct sigs as [|first more]; [contradiction|].
  apply List.Forall_cons_iff in Hpriced. destruct Hpriced as [[_ Hnz] _].
  assert (Hprice : ActiveSignals.price_for prices r = Some first.(sd_current_price)).
  { unfold ActiveSignals.price_for, prices, collect_current_prices.
    rewrite (collect_found processed [] r.(ticker) first more);
      [reflexivity| |exact Hin|exact Hnz].
    apply processed_nodup. exact Hnd. }
  destruct (validate_new_row prices r _ Hnew Hprice) as (Ht & Hc & Hst).
  exists first, more. rewrite Ht, Hc. split; [exact Hin|].
  split; [exact Hcreated|exact Hst].
Qed.

End ProcessingCycle.

(** On an empty store, [two_tickers] gives three rows: the two of BTC are
    checked against 49000, the price of the first, so that the 4h LONG with
    entry 49200 is filled although its own price is 49500; the SHORT of ETH
    stays new at 2900. *)
Lemma cycle_checks_created_rows_witness :
  List.NoDup (List.map fst two_tickers)
  /\ checked_at_first_price
       (SignalManager.parse_and_analyze no_text_number blank_float 0 two_tickers)
       0 0
       (fst (SignalCycle.fetch_and_process_all_signals no_text_number blank_float
               no_query_error empty_session 0 two_tickers))
  /\ List.map status
       (fst (SignalCycle.fetch_and_process_all_signals no_text_number blank_float
               no_query_error empty_session 0 two_tickers)).(signals)
     = ["entry_hit"; "entry_hit"; "new"].
Proof.
  assert (Hnd : List.NoDup (List.map fst two_tickers)).
  { cbn. repeat constructor; cbn; intuition discriminate. }
  split; [exact Hnd|]. split.
  - exact (cycle_checks_created_rows no_text_number blank_float no_query_error
             empty_session 0 two_tickers Hnd).
  - reflexivity.
Defined.

(* ---------------------------------------------------------------------- *)
(** ** The summary of the confidences *)

Section Summaries.

Import ConfidenceSummary.

Variable float_mean : list Q -> Q.

Lemma Qlt_bool_true (a b : Q) : Py.Qlt_bool a b = true <-> (a < b)%Q.
Proof.
  unfold Py.Qlt_bool. rewrite negb_true_iff. split.
  - intros H. apply Qnot_le_lt. intros Hle. apply Qle_bool_iff in Hle. congruence.
  - intros H. destruct (Qle_bool b a) eqn:E; [|reflexivity].
    apply Qle_bool_iff in E. exfalso. exact (Qlt_not_le _ _ H E).
Qed.

Lemma Qlt_bool_false (a b : Q) : Py.Qlt_bool a b = false <-> (b <= a)%Q.
Proof.
  unfold Py.Qlt_bool. rewrite negb_false_iff. apply Qle_bool_iff.
Qed.

Lemma py_max_spec (rest : list Q) : forall first,
  In (py_max first rest) (first :: rest)
  /\ forall c, In c (first :: rest) -> (c <= py_max first rest)%Q.
Proof.
  induction rest as [|x rest IH]; intros first.
  - cbn. split; [left; reflexivity|]. intros c [<-|[]]. apply Qle_refl.
  - unfold py_max. cbn [fold_left]. fold (py_max (if Py.Qlt_bool first x then x else first) rest).
    destruct (IH (if Py.Qlt_bool first x then x else first)) as [Hin Hub].
    destruct (Py.Qlt_bool first x) eqn:E.
    + apply Qlt_bool_true in E. split.
      * destruct Hin as [<-|Hin]; [right; left; reflexivity|right; right; exact Hin].
      * intros c [<-|[<-|Hc]].
        -- apply Qle_trans with x; [apply Qlt_le_weak; exact E|].
           apply Hub. left. reflexivity.
        -- apply Hub. left. reflexivity.
        -- apply Hub. right. exact Hc.
    + apply Qlt_bool_false in E. split.
      * destruct Hin as [<-|Hin]; [left; reflexivity|right; right; exact Hin].
      * intros c [<-|[<-|Hc]].
        -- apply Hub. left. reflexivity.
        -- apply Qle_trans with first; [exact E|]. apply Hub. left. reflexivity.
        -- apply Hub. right. exact Hc.
Qed.

Lemma py_min_spec (rest : list Q) : forall first,
  In (py_min first rest) (first :: rest)
  /\ forall c, In c (first :: rest) -> (py_min first rest <= c)%Q.
Proof.
  induction rest as [|x rest IH]; intros first.
  - cbn. split; [left; reflexivity|]. intros c [<-|[]]. apply Qle_refl.
  - unfold py_min. cbn [fold_left]. fold (py_min (if Py.Qlt_bool x first then x else first) rest).
    destruct (IH (if Py.Qlt_bool x first then x else first)) as [Hin Hlb].
    destruct (Py.Qlt_bool x first) eqn:E.
    + apply Qlt_bool_true in E. split.
      * destruct Hin as [<-|Hin]; [right; left; reflexivity|right; right; exact Hin].
      * intros c [<-|[<-|Hc]].
        -- apply Qle_trans with x; [|apply Qlt_le_weak; exact E].
           apply Hlb. left. reflexivity.
        -- apply Hlb. left. reflexivity.
        -- apply Hlb. right. exact Hc.
    + apply Qlt_bool_false in E. split.
      * destruct Hin as [<-|Hin]; [left; reflexivity|right; right; exact Hin].
      * intros c [<-|[<-|Hc]].
        -- apply Hlb. left. reflexivity.
        -- apply Qle_trans with first; [|exact E]. apply Hlb. left. reflexivity.
        -- apply Hlb. right. exact Hc.
Qed.

Lemma confidences_spec (signals : list Observation) (c : Q) :
  In c (confidences signals)
  <-> exists sd, In sd signals /\ sd.(sd_confidence) = Some c.
Proof.
  induction signals as [|s rest IH]; cbn [confidences].
  - split; [intros []|intros (sd & [] & _)].
  - destruct (sd_confidence s) as [c0|] eqn:E.
    + split.
      * intros [<-|H]; [exists s; split; [left; reflexivity|exact E]|].
        apply IH in H. destruct H as (sd & Hin & Hsd).
        exists sd. split; [right; exact Hin|exact Hsd].
      * intros (sd & [<-|Hin] & Hsd).
        -- left. congruence.
        -- right. apply IH. exists sd. split; assumption.
    + rewrite IH. split.
      * intros (sd & Hin & Hsd). exists sd. split; [right; exact Hin|exact Hsd].
      * intros (sd & [<-|Hin] & Hsd); [congruence|].
        exists sd. split; assumption.
Qed.

Lemma confidences_length (signals : list Observation) :
  length (confidences signals) <= length signals.
Proof.
  induction signals as [|s rest IH]; cbn [confidences length]; [lia|].
  destruct (sd_confidence s); cbn [length]; lia.
Qed.

Lemma exclusive_counts (f g : Q -> bool) (l : list Q) :
  (forall x, f x = true -> g x = false) ->
  length (List.filter f l) + length (List.filter g l) <= length l.
Proof.
  intros Hfg. induction l as [|x l IH]; cbn [List.filter length]; [lia|].
  destruct (f x) eqn:Ef.
  - rewrite (Hfg x Ef). cbn [length]. lia.
  - destruct (g x); cbn [length]; lia.
Qed.

Lemma filter_none (f : Q -> bool) (l : list Q) :
  length (List.filter f l) = 0 <-> forall x, In x l -> f x = false.
Proof.
  induction l as [|x l IH]; cbn [List.filter].
  - split; [intros _ y []|reflexivity].
  - destruct (f x) eqn:Ef; cbn [length].
    + split; [discriminate|]. intros H. specialize (H x (or_introl eq_refl)).
      congruence.
    + rewrite IH. split.
      * intros H y [<-|Hy]; [exact Ef|exact (H y Hy)].
      * intros H y Hy. apply H. right. exact Hy.
Qed.

(** [get_confidence_summary] gives the empty dict exactly when no signal
    has a known confidence. Otherwise [total_signals] counts the signals
    with a known confidence; the maximum and the minimum are confidences of
    signals and bound every known confidence; a confidence is counted as
    high or as low, never as both; none is counted as high exactly when the
    maximum is below 90, and none as low exactly when the minimum is at
    least 50. *)
Theorem confidence_summary_bounds (signals : list Observation) :
  (get_confidence_summary float_mean signals = None
   <-> forall sd, In sd signals -> sd.(sd_confidence) = None)
  /\ forall s, get_confidence_summary float_mean signals = Some s ->
       s.(total_signals) = length (confidences signals)
       /\ 1 <= s.(total_signals) <= length signals
       /\ s.(high_confidence_count) + s.(low_confidence_count) <= s.(total_signals)
       /\ (exists sd, In sd signals /\ sd.(sd_confidence) = Some s.(max_confidence))
       /\ (exists sd, In sd signals /\ sd.(sd_confidence) = Some s.(min_confidence))
       /\ (forall sd c, In sd signals -> sd.(sd_confidence) = Some c ->
             (s.(min_confidence) <= c <= s.(max_confidence))%Q)
       /\ (s.(high_confidence_count) = 0 <-> (s.(max_confidence) < 90)%Q)
       /\ (s.(low_confidence_count) = 0 <-> (50 <= s.(min_confidence))%Q).
Proof.
  assert (Hget : get_confidence_summary float_mean signals
                 = match confidences signals with
                   | [] => None
                   | first :: rest =>
                       Some {| avg_confidence := float_mean (first :: rest);
                               max_confidence := py_max first rest;
                               min_confidence := py_min first rest;
                               high_confidence_count :=
                                 length (List.filter
                                           (fun c => Qle_bool ConfidenceAnalyzer.HIGH_CONFIDENCE_THRESHOLD c)
                                           (first :: rest));
                               low_confidence_count :=
                                 length (List.filter
                                           (fun c => Py.Qlt_bool c ConfidenceAnalyzer.LOW_CONFIDENCE_THRESHOLD)
                                           (first :: rest));
                               total_signals := length (first :: rest) |}
                   end).
  { destruct signals; reflexivity. }
  rewrite Hget. clear Hget.
  pose proof (confidences_length signals) as Hlen.
  pose proof (confidences_spec signals) as Hspec.
  destruct (confidences signals) as [|first rest] eqn:Hcs.
  - split; [|discriminate]. split; [|reflexivity].
    intros _ sd Hin. destruct (sd_confidence sd) as [c|] eqn:E; [|reflexivity].
    exfalso. apply (Hspec c). exists sd. split; assumption.
  - split.
    + split; [discriminate|]. intros Hnone. exfalso.
      destruct (proj1 (Hspec first) (or_introl eq_refl)) as (sd & Hin & Hsd).
      rewrite (Hnone sd Hin) in Hsd. discriminate.
    + intros s Hs.
      destruct (py_max_spec rest first) as [Hmax_in Hmax].
      destruct (py_min_spec rest first) as [Hmin_in Hmin].
      assert (Hpos : 1 <= length (first :: rest)) by (cbn [length]; lia).
      remember (first :: rest) as cs eqn:Ecs in *. injection Hs as <-.
      cbn [total_signals high_confidence_count low_confidence_count
           max_confidence min_confidence].
      split; [reflexivity|]. split; [lia|].
      split.
      { apply exclusive_counts. intros x Hx. apply Qlt_bool_false.
        apply Qle_bool_iff in Hx.
        apply Qle_trans with ConfidenceAnalyzer.HIGH_CONFIDENCE_THRESHOLD;
          [discriminate|exact Hx]. }
      split; [apply Hspec; exact Hmax_in|].
      split; [apply Hspec; exact Hmin_in|].
      split.
      { intros sd c Hin Hsd.
        assert (Hc : In c cs) by (apply Hspec; exists sd; split; assumption).
        split; [apply Hmin; exact Hc|apply Hmax; exact Hc]. }
      split.
      { rewrite filter_none. split.
        - intros H. specialize (H _ Hmax_in). apply Qnot_le_lt. intros Hle.
          apply Qle_bool_iff in Hle.
          unfold ConfidenceAnalyzer.HIGH_CONFIDENCE_THRESHOLD in H. congruence.
        - intros Hlt x Hx. destruct (Qle_bool _ x) eqn:E; [|reflexivity].
          apply Qle_bool_iff in E. exfalso.
          apply (Qlt_not_le _ _ Hlt). apply Qle_trans with x; [exact E|].
          apply Hmax. exact Hx. }
      { rewrite filter_none. split.
        - intros H. specialize (H _ Hmin_in). apply Qlt_bool_false in H. exact H.
        - intros Hle x Hx. apply Qlt_bool_false.
          apply Qle_trans with (py_min first rest); [exact Hle|].
          apply Hmin. exact Hx. }
Qed.

End Summaries.

(* ---------------------------------------------------------------------- *)
(** ** The batch of the API client *)

Section FetchBatch.

Import SignalDataParser SignalAPIClient.

Variable response_truthy : Response -> bool.
Variable request : nat -> nat -> Attempt.

Lemma dict_get_set_ne (d : list (string * PyVal)) (k k' : string) (v : PyVal) :
  k <> k' -> dict_get (dict_set d k v) k' = dict_get d k'.
Proof.
  intros Hkk. induction d as [|[k0 v0] rest IH]; cbn [dict_set dict_get].
  - apply String.eqb_neq in Hkk. rewrite Hkk. reflexivity.
  - destruct (String.eqb_spec k0 k) as [->|Hne]; cbn [dict_get].
    + apply String.eqb_neq in Hkk. rewrite Hkk. reflexivity.
    + destruct (k0 =? k'); [reflexivity|exact IH].
Qed.

Lemma dict_set_keys (d : list (string * PyVal)) (k : string) (v : PyVal) :
  (In k (List.map fst d) -> List.map fst (dict_set d k v) = List.map fst d)
  /\ (~ In k (List.map fst d) ->
      List.map fst (dict_set d k v) = List.map fst d ++ [k]).
Proof.
  induction d as [|[k0 v0] rest [IHin IHout]]; cbn [dict_set List.map fst].
  - split; [intros []|reflexivity].
  - destruct (String.eqb_spec k0 k) as [->|Hne]; cbn [List.map fst].
    + split; [reflexivity|]. intros H. exfalso. apply H. left. reflexivity.
    + split.
      * intros [H|H]; [contradiction|]. rewrite (IHin H). reflexivity.
      * intros H. rewrite IHout by (intros H'; apply H; right; exact H').
        reflexivity.
Qed.

(** What one ticker does to the keys of [results]. *)
Lemma dict_set_nodup (d : list (string * PyVal)) (k : string) (v : PyVal) :
  List.NoDup (List.map fst d) ->
  List.NoDup (List.map fst (dict_set d k v))
  /\ length (dict_set d k v) <= S (length d)
  /\ forall t, In t (List.map fst (dict_set d k v)) <-> t = k \/ In t (List.map fst d).
Proof.
  intros Hnd. destruct (dict_set_keys d k v) as [Hin Hout].
  assert (Hlen : length (dict_set d k v) = length (List.map fst (dict_set d k v)))
    by (rewrite length_map; reflexivity).
  destruct (List.in_dec String.string_dec k (List.map fst d)) as [Hk|Hk].
  - rewrite Hlen, (Hin Hk), length_map. split; [exact Hnd|]. split; [lia|].
    intros t. split; [tauto|]. intros [->|H]; assumption.
  - rewrite Hlen, (Hout Hk), length_app, length_map. cbn [length].
    split; [|split; [lia|]].
    + apply List.NoDup_app; [exact Hnd|repeat constructor; intros []|].
      intros x Hx [<-|[]]. contradiction.
    + intros t. rewrite List.in_app_iff. cbn. intuition congruence.
Qed.

Lemma at_most_three_requests (i : nat) :
  (get_multi_signal response_truthy (request i) 2).(requests) <= 3.
Proof.
  unfold get_multi_signal. change (Z.to_nat (2 + 1)) with 3.
  destruct (attempts_spec response_truthy (request i) 2 2 0 0 eq_refl eq_refl)
    as (last & H1 & H2 & _).
  cbv zeta in H1. lia.
Qed.

(** The loop from the ticker of index [i] on. *)
Lemma fetch_from_spec (tickers : list string) : forall i acc,
  List.NoDup (List.map fst acc.(results)) ->
  let out := fetch_from response_truthy request i tickers acc in
  List.NoDup (List.map fst out.(results))
  /\ length out.(results) <= length acc.(results) + length tickers
  /\ (forall t, In t (List.map fst out.(results))
                <-> In t (List.map fst acc.(results)) \/ In t tickers)
  /\ out.(sent) <= acc.(sent) + 3 * length tickers
  /\ out.(delays) + (if (0 <? i)%nat then 0 else min 1 (length tickers))
     = acc.(delays) + length tickers
  /\ (forall t, ~ In t tickers ->
        dict_get out.(results) t = dict_get acc.(results) t)
  /\ forall j t, tickers !! j = Some t ->
       (forall j', j < j' -> tickers !! j' <> Some t) ->
       dict_get out.(results) t
       = Some (get_multi_signal response_truthy (request (i + j)) 2).(result).
Proof.
  induction tickers as [|ticker rest IH]; intros i acc Hnd; cbv zeta.
  - cbn [fetch_from length]. split; [exact Hnd|]. split; [lia|].
    split; [intros t; cbn; tauto|]. split; [lia|].
    split; [destruct (0 <? i)%nat; cbn; lia|]. split; [reflexivity|].
    intros j t Hj. discriminate Hj.
  - cbn [fetch_from].
    set (acc' := fetch_ticker response_truthy request acc i ticker).
    destruct (dict_set_nodup acc.(results) ticker
                (get_multi_signal response_truthy (request i) 2).(result) Hnd)
      as (Hnd' & Hlen' & Hkeys').
    specialize (IH (S i) acc' Hnd'). cbv zeta in IH.
    destruct IH as (I1 & I2 & I3 & I4 & I5 & I6 & I7).
    pose proof (at_most_three_requests i) as Hthree.
    assert (Hres : acc'.(results)
                   = dict_set acc.(results) ticker
                       (get_multi_signal response_truthy (request i) 2).(result))
      by reflexivity.
    assert (Hsent : acc'.(sent)
                    = acc.(sent)
                      + (get_multi_signal response_truthy (request i) 2).(requests))
      by reflexivity.
    assert (Hdel : acc'.(delays)
                   = if (0 <? i)%nat then S acc.(delays) else acc.(delays))
      by reflexivity.
    split; [exact I1|]. split; [cbn [length]; rewrite Hres in I2; lia|].
    split.
    { intros t. rewrite I3, Hres, Hkeys'. cbn [In]. intuition congruence. }
    split; [cbn [length]; lia|].
    split.
    { cbn [length]. change (0 <? S i)%nat with true in I5. rewrite Hdel in I5.
      destruct (0 <? i)%nat; cbn [min]; lia. }
    split.
    { intros t Hnot. rewrite I6 by (intros H; apply Hnot; right; exact H).
      rewrite Hres. apply dict_get_set_ne. intros ->. apply Hnot. left. reflexivity. }
    intros [|j] t Hj Hlast.
    + injection Hj as ->. rewrite Nat.add_0_r. rewrite I6.
      * rewrite Hres. apply dict_get_set.
      * intros Hin. apply list_elem_of_In in Hin.
        apply list_elem_of_lookup_1 in Hin. destruct Hin as [j' Hj'].
        apply (Hlast (S j')); [lia|exact Hj'].
    + replace (i + S j) with (S i + j) by lia. apply I7; [exact Hj|].
      intros j' Hlt. apply (Hlast (S j')). lia.
Qed.

(** [get_signals_batch] returns one entry per ticker of the list, a ticker
    that is listed twice being fetched twice and keeping the answer to its
    last call; it asks for every ticker of the list and for no other,
    sends at most three requests per ticker, and pauses once between two
    tickers. *)
Theorem get_signals_batch_entries (tickers : list string) :
  let out := get_signals_batch response_truthy request tickers in
  List.NoDup (List.map fst out.(results))
  /\ length out.(results) <= length tickers
  /\ (forall t, In t (List.map fst out.(results)) <-> In t tickers)
  /\ (forall i t, tickers !! i = Some t ->
        (forall j, i < j -> tickers !! j <> Some t) ->
        dict_get out.(results) t
        = Some (get_multi_signal response_truthy (request i) 2).(result))
  /\ out.(sent) <= 3 * length tickers
  /\ out.(delays) = length tickers - 1.
Proof.
  cbv zeta. unfold get_signals_batch.
  destruct (fetch_from_spec tickers 0 {| results := []; sent := 0; delays := 0 |})
    as (H1 & H2 & H3 & H4 & H5 & _ & H7).
  { constructor. }
  cbv zeta in *. cbn [results sent delays length List.map] in *.
  split; [exact H1|]. split; [lia|].
  split; [intros t; rewrite H3; cbn; tauto|].
  split; [intros i t Hi Hlast; exact (H7 i t Hi Hlast)|].
  split; [lia|].
  change (0 <? 0)%nat with false in H5. destruct tickers; cbn [length min] in *; lia.
Qed.

End FetchBatch.
